(** * caddy-plus: dynamic service-discovery upstreams

    A shallow embedding of the discovery providers of caddy-plus
    (packages [nacos], [consul], [mdns], [providers] and [dynamic_sd])
    together with the properties of their upstream-refresh protocol.

    Conventions of the embedding.
    - A Go [error] produced by [fmt.Errorf] is the message it carries;
      the nil error is [None].
    - A Go function returning [(value, error)] returns a pair, so that
      "empty list with nil error" is a value one can talk about.
    - A slice of upstreams is a list; the nil slice and the empty slice
      are both [[]] (the code only ever asks for [len]).
    - Calls to the logger do not touch any modelled state and are left
      out; the logger is the one installed by [Provision].
    - A run-time panic is the [Panic] outcome. *)

From Stdlib Require Import ZArith NArith Lia Bool Ascii.
From stdpp Require Import base strings list gmap pretty.

Local Open Scope string_scope.

(** ** Shared vocabulary *)

Definition error : Type := string.

(** Outcome of a piece of code that may panic. *)
Inductive Outcome (A : Type) : Type :=
| Panic (msg : string)
| Done (a : A).
Arguments Panic {A} msg.
Arguments Done {A} a.

Module reverseproxy.

(** [reverseproxy.Upstream]: only the dial target is ever set. *)
Record Upstream : Type := mkUpstream { Dial : string }.

#[global] Instance Upstream_eq_dec : EqDecision Upstream.
Proof. solve_decision. Defined.

End reverseproxy.
Export reverseproxy.

(** ** The pieces of the Go standard library the providers call *)

Module strconv.

(** [strconv.Itoa]: base-10 text of an [int]. *)
Definition Itoa (i : Z) : string := pretty i.

(** [strconv.FormatUint(i, 10)]: base-10 text of a [uint64]. *)
Definition FormatUint10 (i : N) : string := pretty i.

End strconv.

Module net.

(** [bytealg.IndexByteString(host, ':') >= 0]. *)
Fixpoint has_colon (s : string) : bool :=
  match s with
  | EmptyString => false
  | String c s' => if Ascii.eqb c ":"%char then true else has_colon s'
  end.

(** [net.JoinHostPort]: a host that contains a colon is taken to be a
    literal IPv6 address and is bracketed. *)
Definition JoinHostPort (host port : string) : string :=
  if has_colon host then "[" ++ host ++ "]:" ++ port
  else host ++ ":" ++ port.

(** [net.IP] is a byte slice. *)
Definition IP : Type := list N.

Definition IPv4len : nat := 4.
Definition IPv6len : nat := 16.

Definition hexDigit (d : N) : string :=
  String.substring (N.to_nat d) 1 "0123456789abcdef".

(** [hexString]: two lower-case hex digits per byte. *)
Fixpoint hexString (b : list N) : string :=
  match b with
  | [] => ""
  | x :: b' => hexDigit (x / 16) ++ hexDigit (x mod 16) ++ hexString b'
  end.

Definition isZeros (p : list N) : bool := forallb (N.eqb 0) p.

(** [IP.To4]: the 4-byte form of an IPv4 address, [None] for nil. *)
Definition To4 (ip : IP) : option IP :=
  if decide (length ip = IPv4len) then Some ip
  else if decide (length ip = IPv6len) then
    if isZeros (take 10 ip)
       && N.eqb (nth 10 ip 0%N) 255 && N.eqb (nth 11 ip 0%N) 255
    then Some (drop 12 ip) else None
  else None.

(** Dotted-decimal text of a 4-byte address. *)
Definition string4 (p : IP) : string :=
  pretty (nth 0 p 0%N) ++ "." ++ pretty (nth 1 p 0%N) ++ "."
  ++ pretty (nth 2 p 0%N) ++ "." ++ pretty (nth 3 p 0%N).

(** The eight 16-bit groups of a 16-byte address. *)
Fixpoint v6u16 (ip : list N) : list N :=
  match ip with
  | hi :: lo :: rest => (hi * 256 + lo)%N :: v6u16 rest
  | _ => []
  end.

(** [appendHex]: lower-case hex without leading zeros. *)
Definition appendHex (x : N) : string :=
  if N.leb 4096 x then
    hexDigit (x / 4096) ++ hexDigit (x / 256 mod 16)
    ++ hexDigit (x / 16 mod 16) ++ hexDigit (x mod 16)
  else if N.leb 256 x then
    hexDigit (x / 256) ++ hexDigit (x / 16 mod 16) ++ hexDigit (x mod 16)
  else if N.leb 16 x then hexDigit (x / 16) ++ hexDigit (x mod 16)
  else hexDigit x.

(** Length of the run of zero groups at the head of [gs]. *)
Fixpoint zeroRun (gs : list N) : nat :=
  match gs with
  | 0%N :: gs' => S (zeroRun gs')
  | _ => 0
  end.

(** First loop of [appendTo6]: the first longest run of at least two
    zero groups, as (zeroStart, zeroEnd); (255, 255) when none. *)
Fixpoint zeroSpan (i : nat) (gs : list N) (best : nat * nat) : nat * nat :=
  match gs with
  | [] => best
  | _ :: gs' =>
      let l := zeroRun gs in
      let best' :=
        if (2 <=? l)%nat && (snd best - fst best <? l)%nat
        then (i, i + l)%nat else best in
      zeroSpan (S i) gs' best'
  end.

(** Second loop of [appendTo6], from group index [i] on. *)
Fixpoint emit6 (fuel i : nat) (gs : list N) (zs ze : nat) : string :=
  match fuel with
  | O => ""
  | S fuel' =>
      if (8 <=? i)%nat then ""
      else if (i =? zs)%nat then
        "::" ++ (if (8 <=? ze)%nat then ""
                 else appendHex (nth ze gs 0%N)
                      ++ emit6 fuel' (S ze) gs zs ze)
      else (if (0 <? i)%nat then ":" else "")
           ++ appendHex (nth i gs 0%N) ++ emit6 fuel' (S i) gs zs ze
  end.

Definition string6 (ip : IP) : string :=
  let gs := v6u16 ip in
  let '(zs, ze) := zeroSpan 0 gs (255, 255)%nat in
  emit6 9 0 gs zs ze.

(** [IP.String]. *)
Definition IP_String (ip : IP) : string :=
  if decide (length ip = 0%nat) then "<nil>"
  else if decide (length ip ≠ IPv4len ∧ length ip ≠ IPv6len)
  then "?" ++ hexString ip
  else match To4 ip with
       | Some p4 => string4 p4
       | None => string6 ip
       end.

End net.

(** ** Package nacos: the Registry-Push provider *)

Module nacos.

(** [model.Instance] of the Nacos SDK, the fields the callback reads. *)
Record Instance : Type := mkInstance {
  Ip : string;
  Port : N;            (* uint64 *)
  Enable : bool;
  Healthy : bool
}.

(** The naming client is an external collaborator.  It is modelled by
    what its calls answer and by the log of the calls made on it
    (most recent last). *)
Inductive ClientCall : Type :=
| CallSubscribe (service group : string) (clusters : list string)
| CallUnsubscribe (service group : string)
| CallCloseClient.

#[global] Instance ClientCall_eq_dec : EqDecision ClientCall.
Proof. solve_decision. Defined.

Record NamingClient : Type := mkNamingClient {
  subscribe_err : option error;     (* what Subscribe returns *)
  unsubscribe_err : option error;   (* what Unsubscribe returns *)
  calls : list ClientCall
}.

Definition invoke (c : ClientCall) (cl : NamingClient) : NamingClient :=
  {| subscribe_err := subscribe_err cl;
     unsubscribe_err := unsubscribe_err cl;
     calls := calls cl ++ [c] |}.

Record NacosProvider : Type := mkNacosProvider {
  ServerAddr : string;
  ServerPort : N;      (* uint64 *)
  NamespaceID : string;
  ServiceName : string;
  GroupName : string;
  Clusters : list string;
  client : option NamingClient;   (* nil until Provision *)
  upstreams : list Upstream
}.

Definition set_upstreams (ups : list Upstream) (np : NacosProvider)
  : NacosProvider :=
  {| ServerAddr := ServerAddr np; ServerPort := ServerPort np;
     NamespaceID := NamespaceID np; ServiceName := ServiceName np;
     GroupName := GroupName np; Clusters := Clusters np;
     client := client np; upstreams := ups |}.

Definition set_client (cl : option NamingClient) (np : NacosProvider)
  : NacosProvider :=
  {| ServerAddr := ServerAddr np; ServerPort := ServerPort np;
     NamespaceID := NamespaceID np; ServiceName := ServiceName np;
     GroupName := GroupName np; Clusters := Clusters np;
     client := cl; upstreams := upstreams np |}.

Definition New : NacosProvider :=
  {| ServerAddr := ""; ServerPort := 0; NamespaceID := "";
     ServiceName := ""; GroupName := "DEFAULT_GROUP"; Clusters := [];
     client := None; upstreams := [] |}.

(** The dial target the callback builds for one instance. *)
Definition dialOf (service : Instance) : Upstream :=
  {| Dial := net.JoinHostPort (Ip service)
               (strconv.FormatUint10 (Port service)) |}.

(** One iteration of the callback's [for _, service := range services]. *)
Definition appendInstance (newUpstreams : list Upstream)
    (service : Instance) : list Upstream :=
  if Enable service && Healthy service
  then newUpstreams ++ [dialOf service]
  else newUpstreams.

(** The [SubscribeCallback] closure of [subscribeToServiceChanges]. *)
Definition SubscribeCallback (np : NacosProvider)
    (services : list Instance) (err : option error) : NacosProvider :=
  match err with
  | Some _ => np
  | None =>
      let newUpstreams := fold_left appendInstance services [] in
      set_upstreams newUpstreams np
  end.

Definition Validate (np : NacosProvider) : option error :=
  if String.eqb (ServerAddr np) "" then
    Some "nacos provider: server_addr is required"
  else if N.eqb (ServerPort np) 0 then
    Some "nacos provider: server_port is required"
  else if String.eqb (ServiceName np) "" then
    Some "nacos provider: service_name is required"
  else None.

Definition Cleanup (np : NacosProvider) : option error * NacosProvider :=
  match client np with
  | None => (None, np)
  | Some cl =>
      let cl1 := invoke (CallUnsubscribe (ServiceName np) (GroupName np)) cl in
      match unsubscribe_err cl with
      | Some err =>
          (Some ("unsubscribing from nacos service '" ++ ServiceName np
                 ++ "': " ++ err),
           set_client (Some cl1) np)
      | None =>
          (None, set_client (Some (invoke CallCloseClient cl1)) np)
      end
  end.

Definition GetUpstreams (np : NacosProvider) : list Upstream * option error :=
  if (length (upstreams np) =? 0)%nat then
    ([], Some ("no healthy upstreams available for service: "
               ++ ServiceName np))
  else (upstreams np, None).

(** [subscribeToServiceChanges]: the subscription is registered on the
    client for (service, group, clusters); a nil client cannot be
    called. *)
Definition subscribeToServiceChanges (np : NacosProvider)
  : Outcome (option error * NacosProvider) :=
  match client np with
  | None => Panic "invalid memory address or nil pointer dereference"
  | Some cl =>
      let cl1 :=
        invoke (CallSubscribe (ServiceName np) (GroupName np) (Clusters np)) cl in
      match subscribe_err cl with
      | Some err =>
          Done (Some ("subscribing to nacos service '" ++ ServiceName np
                      ++ "': " ++ err),
                set_client (Some cl1) np)
      | None => Done (None, set_client (Some cl1) np)
      end
  end.

(** [Provision]; [created] is what [clients.NewNamingClient] answers,
    a client and an error. *)
Definition Provision (np : NacosProvider)
    (created : option NamingClient * option error)
  : Outcome (option error * NacosProvider) :=
  let '(cl, err) := created in
  let np := set_client cl np in
  match err with
  | Some e => Done (Some ("creating nacos naming client: " ++ e), np)
  | None => subscribeToServiceChanges np
  end.

(** The notifications the client delivers to the callback, one after
    the other: instances and error of each. *)
Definition deliver (np : NacosProvider)
    (notifications : list (list Instance * option error)) : NacosProvider :=
  fold_left (λ np n, SubscribeCallback np n.1 n.2) notifications np.

End nacos.

(** ** Package consul: the Registry-Poll provider *)

Module consul.

(** [consulApi.ServiceEntry], the fields [updateUpstreams] reads. *)
Record ServiceEntry : Type := mkServiceEntry {
  Node_Address : string;      (* entry.Node.Address *)
  Service_Address : string;   (* entry.Service.Address *)
  Service_Port : Z            (* entry.Service.Port, an int *)
}.

(** What [client.Health().Service(...)] answers: entries and error. *)
Definition QueryResult : Type := (list ServiceEntry * option error)%type.

(** State of [stopChan]. *)
Inductive Chan : Type := ChanOpen | ChanClosed.

Record ConsulProvider : Type := mkConsulProvider {
  Address : string;
  ServiceName : string;
  Tags : list string;
  PassingOnly : bool;
  PollInterval : Z;           (* time.Duration, nanoseconds *)
  upstreams : list Upstream;
  stopChan : option Chan      (* nil until Provision *)
}.

Definition set_upstreams (ups : list Upstream) (cp : ConsulProvider)
  : ConsulProvider :=
  {| Address := Address cp; ServiceName := ServiceName cp;
     Tags := Tags cp; PassingOnly := PassingOnly cp;
     PollInterval := PollInterval cp; upstreams := ups;
     stopChan := stopChan cp |}.

Definition set_stopChan (ch : option Chan) (cp : ConsulProvider)
  : ConsulProvider :=
  {| Address := Address cp; ServiceName := ServiceName cp;
     Tags := Tags cp; PassingOnly := PassingOnly cp;
     PollInterval := PollInterval cp; upstreams := upstreams cp;
     stopChan := ch |}.

Definition New : ConsulProvider :=
  {| Address := ""; ServiceName := ""; Tags := [];
     PassingOnly := true; PollInterval := 10 * 1000000000;
     upstreams := []; stopChan := None |}.

(** The dial target built for one entry: the service address, or the
    node address when the service address is empty. *)
Definition dialOf (entry : ServiceEntry) : Upstream :=
  let addr := Service_Address entry in
  let addr := if String.eqb addr "" then Node_Address entry else addr in
  {| Dial := net.JoinHostPort addr (strconv.Itoa (Service_Port entry)) |}.

Definition appendEntry (newUpstreams : list Upstream)
    (entry : ServiceEntry) : list Upstream :=
  newUpstreams ++ [dialOf entry].

Definition updateUpstreams (cp : ConsulProvider) (resp : QueryResult)
  : option error * ConsulProvider :=
  let '(serviceEntries, err) := resp in
  match err with
  | Some e =>
      (Some ("querying consul for service '" ++ ServiceName cp
             ++ "': " ++ e), cp)
  | None =>
      let newUpstreams := fold_left appendEntry serviceEntries [] in
      (None, set_upstreams newUpstreams cp)
  end.

(** What the [select] of [watchServiceChanges] receives: a tick, with
    the answer the registry gives to the query made on that tick, or
    the stop signal. *)
Inductive WatchEvent : Type :=
| Tick (resp : QueryResult)
| Stop.

(** [watchServiceChanges] over the events it receives; the error of a
    failed update is only logged. *)
Fixpoint watchServiceChanges (cp : ConsulProvider)
    (events : list WatchEvent) : ConsulProvider :=
  match events with
  | [] => cp
  | Tick resp :: events' =>
      watchServiceChanges (snd (updateUpstreams cp resp)) events'
  | Stop :: _ => cp
  end.

Definition Validate (cp : ConsulProvider) : option error :=
  if String.eqb (ServiceName cp) "" then
    Some "consul provider: service_name is required"
  else None.

(** [close] of a closed channel panics. *)
Definition Cleanup (cp : ConsulProvider)
  : Outcome (option error * ConsulProvider) :=
  match stopChan cp with
  | Some ChanOpen => Done (None, set_stopChan (Some ChanClosed) cp)
  | Some ChanClosed => Panic "close of closed channel"
  | None => Done (None, cp)
  end.

Definition GetUpstreams (cp : ConsulProvider) : list Upstream * option error :=
  if (length (upstreams cp) =? 0)%nat then
    ([], Some ("no healthy upstreams available for service: "
               ++ ServiceName cp))
  else (upstreams cp, None).

(** [Provision]; [clientErr] is the error of [consulApi.NewClient] and
    [resp] the answer to the first query.  The error of the first
    update is only logged; the watch loop is started afterwards. *)
Definition Provision (cp : ConsulProvider) (clientErr : option error)
    (resp : QueryResult) : option error * ConsulProvider :=
  let cp := set_stopChan (Some ChanOpen) cp in
  match clientErr with
  | Some e => (Some ("creating consul client: " ++ e), cp)
  | None => (None, snd (updateUpstreams cp resp))
  end.

End consul.

(** ** Package mdns: the Broadcast-Listen provider *)

Module mdns.

(** [zeroconf.ServiceEntry], the fields the consumer reads. *)
Record ServiceEntry : Type := mkServiceEntry {
  Instance : string;
  TTL : N;                    (* uint32 *)
  AddrIPv4 : list net.IP;
  AddrIPv6 : list net.IP;
  Port : Z                    (* int *)
}.

(** The context created by [Provision]; [cancelFunc] cancels it. *)
Inductive Context : Type := CtxLive | CtxCancelled.

Record MdnsProvider : Type := mkMdnsProvider {
  ServiceName : string;
  Domain : string;
  BrowseTimeout : Z;          (* time.Duration, nanoseconds *)
  upstreams : list Upstream;
  cancelFunc : option Context (* nil until Provision *)
}.

Definition set_upstreams (ups : list Upstream) (mp : MdnsProvider)
  : MdnsProvider :=
  {| ServiceName := ServiceName mp; Domain := Domain mp;
     BrowseTimeout := BrowseTimeout mp; upstreams := ups;
     cancelFunc := cancelFunc mp |}.

Definition set_cancelFunc (c : option Context) (mp : MdnsProvider)
  : MdnsProvider :=
  {| ServiceName := ServiceName mp; Domain := Domain mp;
     BrowseTimeout := BrowseTimeout mp; upstreams := upstreams mp;
     cancelFunc := c |}.

Definition New : MdnsProvider :=
  {| ServiceName := ""; Domain := "local.";
     BrowseTimeout := 5 * 1000000000; upstreams := [];
     cancelFunc := None |}.

(** Go iterates over a map in an unspecified order.  [RangeOrder] is
    the order one [for _, up := range activeServices] takes: some
    arrangement of the values of the map. *)
Definition RangeOrder : Type := gmap string Upstream → list Upstream.

Definition range_ok (range : RangeOrder) : Prop :=
  ∀ m : gmap string Upstream, range m ≡ₚ (map_to_list m).*2.

(** The order in which [map_to_list] lists the map. *)
Definition range_listed : RangeOrder := λ m, (map_to_list m).*2.

Definition updateUpstreams (range : RangeOrder) (mp : MdnsProvider)
    (activeServices : gmap string Upstream) : MdnsProvider :=
  let newUpstreams :=
    fold_left (λ (acc : list Upstream) up, (acc ++ [up])%list)
      (range activeServices) [] in
  set_upstreams newUpstreams mp.

(** State of the consuming goroutine of [runDiscovery]: its local map
    and the provider it writes to. *)
Record Consumer : Type := mkConsumer {
  activeServices : gmap string Upstream;
  provider : MdnsProvider
}.

(** Body of [for entry := range entries]. *)
Definition consumeEntry (range : RangeOrder) (st : Consumer)
    (entry : ServiceEntry) : Outcome Consumer :=
  if N.eqb (TTL entry) 0 then
    match activeServices st !! Instance entry with
    | Some _ =>
        let active := delete (Instance entry) (activeServices st) in
        Done {| activeServices := active;
                provider := updateUpstreams range (provider st) active |}
    | None => Done st
    end
  else
    match AddrIPv4 entry !! 0%nat with
    | None => Panic "index out of range [0] with length 0"
    | Some ip4 =>
        let addr := net.IP_String ip4 in
        let addr :=
          if String.eqb addr "" && (0 <? length (AddrIPv6 entry))%nat
          then net.IP_String (nth 0 (AddrIPv6 entry) [])
          else addr in
        if String.eqb addr "" then Done st
        else
          let upstream :=
            {| Dial := net.JoinHostPort addr (strconv.Itoa (Port entry)) |} in
          let active := <[Instance entry := upstream]> (activeServices st) in
          Done {| activeServices := active;
                  provider := updateUpstreams range (provider st) active |}
    end.

Definition Validate (mp : MdnsProvider) : option error :=
  if String.eqb (ServiceName mp) "" then
    Some "mdns provider: service_name is required (e.g., '_http._tcp')"
  else None.

Definition Cleanup (mp : MdnsProvider) : option error * MdnsProvider :=
  match cancelFunc mp with
  | Some _ => (None, set_cancelFunc (Some CtxCancelled) mp)
  | None => (None, mp)
  end.

Definition GetUpstreams (mp : MdnsProvider) : list Upstream * option error :=
  if (length (upstreams mp) =? 0)%nat then
    ([], Some ("no mDNS instances available for service: "
               ++ ServiceName mp))
  else (upstreams mp, None).

(** [Provision]: a cancellable context is created and the discovery
    goroutine is started. *)
Definition Provision (mp : MdnsProvider) : option error * MdnsProvider :=
  (None, set_cancelFunc (Some CtxLive) mp).

(** The loop [for entry := range entries] of the consuming goroutine,
    over the entries the channel delivers; each entry comes with the
    order in which the map is ranged over after it.  A panic ends the
    goroutine. *)
Fixpoint runConsumer (inputs : list (RangeOrder * ServiceEntry))
    (st : Consumer) : Outcome Consumer :=
  match inputs with
  | [] => Done st
  | (range, entry) :: inputs' =>
      match consumeEntry range st entry with
      | Panic msg => Panic msg
      | Done st' => runConsumer inputs' st'
      end
  end.

(** [runDiscovery]; [resolverErr] is the error of
    [zeroconf.NewResolver] and [inputs] what [Browse] delivers before
    the channel is closed. *)
Definition runDiscovery (mp : MdnsProvider) (resolverErr : option error)
    (inputs : list (RangeOrder * ServiceEntry)) : Outcome MdnsProvider :=
  match resolverErr with
  | Some _ => Done mp
  | None =>
      match runConsumer inputs {| activeServices := ∅; provider := mp |} with
      | Panic msg => Panic msg
      | Done st => Done (provider st)
      end
  end.

End mdns.

(** ** Package providers: the interface and the factory *)

Module providers.

(** A value of the [Provider] interface is one of the three
    implementations. *)
Inductive Provider : Type :=
| Nacos (np : nacos.NacosProvider)
| Consul (cp : consul.ConsulProvider)
| Mdns (mp : mdns.MdnsProvider).

Definition NewProvider (name : string) : option Provider * option error :=
  if String.eqb name "nacos" then (Some (Nacos nacos.New), None)
  else if String.eqb name "consul" then (Some (Consul consul.New), None)
  else if String.eqb name "mdns" then (Some (Mdns mdns.New), None)
  else (None,
        Some ("unknown service discovery provider: '" ++ name
              ++ "'. supported providers are: nacos, consul, mdns")).

Definition Validate (p : Provider) : option error :=
  match p with
  | Nacos np => nacos.Validate np
  | Consul cp => consul.Validate cp
  | Mdns mp => mdns.Validate mp
  end.

Definition Cleanup (p : Provider) : Outcome (option error * Provider) :=
  match p with
  | Nacos np => let '(e, np') := nacos.Cleanup np in Done (e, Nacos np')
  | Consul cp =>
      match consul.Cleanup cp with
      | Panic msg => Panic msg
      | Done (e, cp') => Done (e, Consul cp')
      end
  | Mdns mp => let '(e, mp') := mdns.Cleanup mp in Done (e, Mdns mp')
  end.

Definition GetUpstreams (p : Provider) : list Upstream * option error :=
  match p with
  | Nacos np => nacos.GetUpstreams np
  | Consul cp => consul.GetUpstreams cp
  | Mdns mp => mdns.GetUpstreams mp
  end.

Definition ServiceName (p : Provider) : string :=
  match p with
  | Nacos np => nacos.ServiceName np
  | Consul cp => consul.ServiceName cp
  | Mdns mp => mdns.ServiceName mp
  end.

Definition upstreams (p : Provider) : list Upstream :=
  match p with
  | Nacos np => nacos.upstreams np
  | Consul cp => consul.upstreams cp
  | Mdns mp => mdns.upstreams mp
  end.

(** What the collaborators answer while a provider is provisioned. *)
Record World : Type := mkWorld {
  nacos_created : option nacos.NamingClient * option error;
  consul_clientErr : option error;
  consul_resp : consul.QueryResult
}.

Definition Provision (p : Provider) (w : World)
  : Outcome (option error * Provider) :=
  match p with
  | Nacos np =>
      match nacos.Provision np (nacos_created w) with
      | Panic msg => Panic msg
      | Done (e, np') => Done (e, Nacos np')
      end
  | Consul cp =>
      let '(e, cp') :=
        consul.Provision cp (consul_clientErr w) (consul_resp w) in
      Done (e, Consul cp')
  | Mdns mp => let '(e, mp') := mdns.Provision mp in Done (e, Mdns mp')
  end.

End providers.

(** ** Package dynamic_sd: the dispatch layer *)

Module dynamic_sd.

Record DynamicSD : Type := mkDynamicSD {
  provider : option providers.Provider   (* nil until selected *)
}.

Definition noProvider : error := "no service discovery provider is configured".

Definition Validate (d : DynamicSD) : Outcome (option error) :=
  match provider d with
  | None => Done (Some noProvider)
  | Some p => Done (providers.Validate p)
  end.

Definition Cleanup (d : DynamicSD) : Outcome (option error * DynamicSD) :=
  match provider d with
  | Some p =>
      match providers.Cleanup p with
      | Panic msg => Panic msg
      | Done (e, p') => Done (e, {| provider := Some p' |})
      end
  | None => Done (None, d)
  end.

Definition GetUpstreams (d : DynamicSD)
  : Outcome (list Upstream * option error) :=
  match provider d with
  | None => Done ([], Some noProvider)
  | Some p => Done (providers.GetUpstreams p)
  end.

Definition Provision (d : DynamicSD) (w : providers.World)
  : Outcome (option error * DynamicSD) :=
  match provider d with
  | None => Done (Some noProvider, d)
  | Some p =>
      match providers.Provision p w with
      | Panic msg => Panic msg
      | Done (e, p') => Done (e, {| provider := Some p' |})
      end
  end.

End dynamic_sd.

(** ** The [upstreams] field under [mu], with goroutines interleaved

    Every provider guards its [upstreams] slice with [mu sync.RWMutex]:
    a replacement runs [mu.Lock(); upstreams = newUpstreams; mu.Unlock()]
    and [GetUpstreams] runs [mu.RLock(); defer mu.RUnlock()], tests
    [len(upstreams)] and returns [upstreams].  A slice header is more
    than one word, so the assignment and the read are modelled word by
    word; goroutines are interleaved by an arbitrary schedule.  The
    backing array [newUpstreams] is built before the lock is taken and
    never written afterwards, so it is identified with its contents. *)

Module store.

Record Mem : Type := mkMem {
  mu_writer : bool;           (* mu is held for writing *)
  mu_readers : nat;           (* number of holders for reading *)
  up_data : list Upstream;    (* array the header of upstreams points to *)
  up_len : nat                (* length word of the header *)
}.

(** The slice a header denotes. *)
Definition slice (m : Mem) : list Upstream := take (up_len m) (up_data m).

Inductive ReplacePc : Type :=
| WLock | WStoreData | WStoreLen | WUnlock | WReturned.

Inductive FetchPc : Type :=
| RRLock
| RTestLen
| RLoadData
| RLoadLen (data : list Upstream)
| RRUnlock (result : list Upstream * option error)
| RReturned (result : list Upstream * option error).

Inductive Thread : Type :=
| Replace (pc : ReplacePc) (newUpstreams : list Upstream)
| Fetch (pc : FetchPc).

Section Interleaving.

(** The error [GetUpstreams] returns for an empty list. *)
Variable unavailable : error.

(** What [GetUpstreams] returns when it sees the whole list [l]. *)
Definition fetch_result (l : list Upstream) : list Upstream * option error :=
  if (length l =? 0)%nat then ([], Some unavailable) else (l, None).

(** One step of one goroutine; [None] when it is blocked on [mu] or
    has returned. *)
Definition step_thread (m : Mem) (t : Thread) : option (Mem * Thread) :=
  match t with
  | Replace WLock new =>
      if mu_writer m || (0 <? mu_readers m)%nat then None
      else Some (mkMem true (mu_readers m) (up_data m) (up_len m),
                 Replace WStoreData new)
  | Replace WStoreData new =>
      Some (mkMem (mu_writer m) (mu_readers m) new (up_len m),
            Replace WStoreLen new)
  | Replace WStoreLen new =>
      Some (mkMem (mu_writer m) (mu_readers m) (up_data m) (length new),
            Replace WUnlock new)
  | Replace WUnlock new =>
      Some (mkMem false (mu_readers m) (up_data m) (up_len m),
            Replace WReturned new)
  | Replace WReturned _ => None
  | Fetch RRLock =>
      if mu_writer m then None
      else Some (mkMem (mu_writer m) (S (mu_readers m)) (up_data m) (up_len m),
                 Fetch RTestLen)
  | Fetch RTestLen =>
      if (up_len m =? 0)%nat
      then Some (m, Fetch (RRUnlock ([], Some unavailable)))
      else Some (m, Fetch RLoadData)
  | Fetch RLoadData => Some (m, Fetch (RLoadLen (up_data m)))
  | Fetch (RLoadLen data) =>
      Some (m, Fetch (RRUnlock (take (up_len m) data, None)))
  | Fetch (RRUnlock r) =>
      Some (mkMem (mu_writer m) (pred (mu_readers m)) (up_data m) (up_len m),
            Fetch (RReturned r))
  | Fetch (RReturned _) => None
  end.

Record Sys : Type := mkSys { mem : Mem; threads : list Thread }.

(** The scheduler lets goroutine [i] take a step. *)
Definition step (i : nat) (s : Sys) : Sys :=
  match threads s !! i with
  | Some t =>
      match step_thread (mem s) t with
      | Some (m', t') => {| mem := m'; threads := <[i := t']> (threads s) |}
      | None => s
      end
  | None => s
  end.

Definition run (sched : list nat) (s : Sys) : Sys :=
  fold_left (λ s i, step i s) sched s.

(** The calls made on one provider. *)
Inductive Op : Type :=
| OpReplace (newUpstreams : list Upstream)
| OpFetch.

Definition spawn (op : Op) : Thread :=
  match op with
  | OpReplace new => Replace WLock new
  | OpFetch => Fetch RRLock
  end.

(** The call a goroutine is executing. *)
Definition call_of (t : Thread) : Op :=
  match t with
  | Replace _ new => OpReplace new
  | Fetch _ => OpFetch
  end.

(** A freshly constructed provider: [mu] free, [upstreams] nil. *)
Definition init (ops : list Op) : Sys :=
  {| mem := mkMem false 0 [] 0; threads := spawn <$> ops |}.

(** The snapshots installed so far: the initial nil slice and the
    lists of the replacements that have returned. *)
Definition installed (ts : list Thread) (l : list Upstream) : Prop :=
  l = [] ∨ Replace WReturned l ∈ ts.

(** Goroutines between [Lock] and [Unlock]. *)
Definition replacing (t : Thread) : nat :=
  match t with
  | Replace (WStoreData | WStoreLen | WUnlock) _ => 1
  | _ => 0
  end.

(** Goroutines between [RLock] and [RUnlock]. *)
Definition reading (t : Thread) : nat :=
  match t with
  | Fetch (RTestLen | RLoadData | RLoadLen _ | RRUnlock _) => 1
  | _ => 0
  end.

(** What holds of one goroutine at its program point, among the
    goroutines [ts]. *)
Definition thread_inv (ts : list Thread) (m : Mem) (t : Thread) : Prop :=
  match t with
  | Replace WStoreLen new => up_data m = new
  | Replace WUnlock new => up_data m = new ∧ up_len m = length new
  | Replace _ _ => True
  | Fetch RLoadData => up_len m ≠ 0%nat
  | Fetch (RLoadLen d) => d = up_data m ∧ up_len m ≠ 0%nat
  | Fetch (RRUnlock r) | Fetch (RReturned r) =>
      ∃ l, installed ts l ∧ r = fetch_result l
  | Fetch _ => True
  end.

Record sys_inv (s : Sys) : Prop := mkSysInv {
  inv_writer :
    sum_list_with replacing (threads s) = if mu_writer (mem s) then 1%nat else 0%nat;
  inv_readers : sum_list_with reading (threads s) = mu_readers (mem s);
  inv_excl : mu_writer (mem s) = true → mu_readers (mem s) = 0%nat;
  inv_whole :
    mu_writer (mem s) = false →
    up_len (mem s) = length (up_data (mem s))
    ∧ installed (threads s) (up_data (mem s));
  inv_threads : Forall (thread_inv (threads s) (mem s)) (threads s)
}.

End Interleaving.

(** A goroutine whose call has returned. *)
Definition returned (t : Thread) : Prop :=
  match t with
  | Replace WReturned _ | Fetch (RReturned _) => True
  | _ => False
  end.

End store.

(** ** Sample inputs used in the examples below *)

Module samples.

(** fe80::1 *)
Definition fe80_1 : net.IP := [254; 128; 0; 0; 0; 0; 0; 0; 0; 0; 0; 0; 0; 0; 0; 1]%N.

(** An entry announcing a host that has an IPv6 address only. *)
Definition ipv6_only_entry : mdns.ServiceEntry :=
  {| mdns.Instance := "printer"; mdns.TTL := 120;
     mdns.AddrIPv4 := []; mdns.AddrIPv6 := [fe80_1]; mdns.Port := 8080 |}.

(** An entry announcing a host with an IPv4 and an IPv6 address. *)
Definition dual_stack_entry : mdns.ServiceEntry :=
  {| mdns.Instance := "printer"; mdns.TTL := 120;
     mdns.AddrIPv4 := [[192; 168; 1; 7]%N]; mdns.AddrIPv6 := [fe80_1];
     mdns.Port := 8080 |}.

(** The goodbye packet of "printer". *)
Definition goodbye_entry : mdns.ServiceEntry :=
  {| mdns.Instance := "printer"; mdns.TTL := 0;
     mdns.AddrIPv4 := []; mdns.AddrIPv6 := []; mdns.Port := 8080 |}.

Definition mdns_provider : mdns.MdnsProvider :=
  {| mdns.ServiceName := "_http._tcp"; mdns.Domain := "local.";
     mdns.BrowseTimeout := 5 * 1000000000;
     mdns.upstreams := [mkUpstream "192.168.1.7:8080"; mkUpstream "192.168.1.9:80"];
     mdns.cancelFunc := Some mdns.CtxLive |}.

(** A consumer that knows "printer" and "nas". *)
Definition two_instances : mdns.Consumer :=
  {| mdns.activeServices :=
       <["printer" := mkUpstream "192.168.1.7:8080"]>
         (<["nas" := mkUpstream "192.168.1.9:80"]> ∅);
     mdns.provider := mdns_provider |}.

(** A consumer that knows "nas" only. *)
Definition one_instance : mdns.Consumer :=
  {| mdns.activeServices := <["nas" := mkUpstream "192.168.1.9:80"]> ∅;
     mdns.provider :=
       mdns.set_upstreams [mkUpstream "192.168.1.9:80"] mdns_provider |}.

(** A provisioned Nacos provider whose registry refuses to unsubscribe. *)
Definition nacos_unsubscribe_fails : nacos.NacosProvider :=
  {| nacos.ServerAddr := "127.0.0.1"; nacos.ServerPort := 8848;
     nacos.NamespaceID := ""; nacos.ServiceName := "web";
     nacos.GroupName := "DEFAULT_GROUP"; nacos.Clusters := [];
     nacos.client :=
       Some {| nacos.subscribe_err := None;
               nacos.unsubscribe_err := Some "request timeout";
               nacos.calls := [nacos.CallSubscribe "web" "DEFAULT_GROUP" []] |};
     nacos.upstreams := [mkUpstream "10.0.0.1:8080"] |}.

(** A configured Nacos provider that has no upstream yet. *)
Definition nacos_empty : nacos.NacosProvider :=
  {| nacos.ServerAddr := "127.0.0.1"; nacos.ServerPort := 8848;
     nacos.NamespaceID := ""; nacos.ServiceName := "web";
     nacos.GroupName := "DEFAULT_GROUP"; nacos.Clusters := [];
     nacos.client := None; nacos.upstreams := [] |}.

(** The notification of the push example: one healthy instance and one
    unhealthy instance. *)
Definition push_notification : list nacos.Instance :=
  [ {| nacos.Ip := "10.0.0.1"; nacos.Port := 8080;
       nacos.Enable := true; nacos.Healthy := true |};
    {| nacos.Ip := "10.0.0.2"; nacos.Port := 8080;
       nacos.Enable := true; nacos.Healthy := false |} ].

(** A notification in which no instance is both enabled and healthy. *)
Definition all_filtered : list nacos.Instance :=
  [ {| nacos.Ip := "10.0.0.1"; nacos.Port := 8080;
       nacos.Enable := false; nacos.Healthy := true |};
    {| nacos.Ip := "10.0.0.2"; nacos.Port := 8080;
       nacos.Enable := true; nacos.Healthy := false |} ].

(** A Consul provider that serves one upstream. *)
Definition consul_serving : consul.ConsulProvider :=
  {| consul.Address := ""; consul.ServiceName := "api"; consul.Tags := [];
     consul.PassingOnly := true; consul.PollInterval := 10 * 1000000000;
     consul.upstreams := [mkUpstream "10.0.0.9:7000"];
     consul.stopChan := Some consul.ChanOpen |}.

(** The answer of the poll example: no service address. *)
Definition poll_answer : list consul.ServiceEntry :=
  [ {| consul.Node_Address := "10.0.0.5"; consul.Service_Address := "";
       consul.Service_Port := 9000 |} ].

(** Two replacements and two fetches on one provider. *)
Definition two_replaces_two_fetches : list store.Op :=
  [ store.OpReplace [mkUpstream "10.0.0.1:8080"];
    store.OpFetch;
    store.OpReplace [mkUpstream "10.0.0.2:8080"; mkUpstream "10.0.0.3:8080"];
    store.OpFetch ].

(** A schedule in which the first fetch asks for [mu] while the first
    replacement holds it and reads once that replacement is over, the
    second replacement asks for [mu] while the first fetch holds it,
    and the second fetch reads after the second replacement. *)
Definition interleaved_schedule : list nat :=
  [0; 1; 0; 2; 0; 0; 1; 2; 1; 1; 1; 1; 2; 3; 2; 2; 2; 3; 3; 3; 3; 3]%nat.

(** A schedule that stops the second replacement between its two
    stores. *)
Definition mid_replace_schedule : list nat :=
  [0; 0; 0; 0; 2; 2]%nat.

(** A naming client that accepts every call and has not been called. *)
Definition naming_client_ok : nacos.NamingClient :=
  {| nacos.subscribe_err := None; nacos.unsubscribe_err := None;
     nacos.calls := [] |}.

(** A naming client that refuses the subscription. *)
Definition naming_client_no_subscribe : nacos.NamingClient :=
  {| nacos.subscribe_err := Some "server is not healthy";
     nacos.unsubscribe_err := None; nacos.calls := [] |}.

(** A Consul provider that has been configured but not provisioned. *)
Definition consul_configured : consul.ConsulProvider :=
  {| consul.Address := ""; consul.ServiceName := "api"; consul.Tags := [];
     consul.PassingOnly := true; consul.PollInterval := 10 * 1000000000;
     consul.upstreams := []; consul.stopChan := None |}.

End samples.

(** * Properties *)

(** ** Building a list by appending in a loop *)

Section AppendLoops.

Lemma nacos_append_loop (services : list nacos.Instance) (acc : list Upstream) :
  fold_left nacos.appendInstance services acc
  = (acc ++ (nacos.dialOf <$>
               List.filter (λ i, nacos.Enable i && nacos.Healthy i) services))%list.
Proof.
  revert acc. induction services as [|i services IH]; intros acc; simpl.
  - by rewrite app_nil_r.
  - rewrite IH. unfold nacos.appendInstance.
    destruct (nacos.Enable i && nacos.Healthy i); simpl; [|done].
    by rewrite <- app_assoc.
Qed.

Lemma consul_append_loop (entries : list consul.ServiceEntry) (acc : list Upstream) :
  fold_left consul.appendEntry entries acc = (acc ++ (consul.dialOf <$> entries))%list.
Proof.
  revert acc. induction entries as [|e entries IH]; intros acc; simpl.
  - by rewrite app_nil_r.
  - rewrite IH. unfold consul.appendEntry. by rewrite <- app_assoc.
Qed.

Lemma mdns_append_loop (ups acc : list Upstream) :
  fold_left (λ (acc : list Upstream) up, (acc ++ [up])%list) ups acc = (acc ++ ups)%list.
Proof.
  revert acc. induction ups as [|u ups IH]; intros acc; simpl.
  - by rewrite app_nil_r.
  - rewrite IH. by rewrite <- app_assoc.
Qed.

Lemma mdns_updateUpstreams_upstreams range mp active :
  mdns.upstreams (mdns.updateUpstreams range mp active) = range active.
Proof. unfold mdns.updateUpstreams. simpl. apply mdns_append_loop. Qed.

End AppendLoops.

(** ** The text of an IP address is never empty *)

Section IPText.

Lemma app_nonempty_r (s1 s2 : string) : s2 ≠ "" → s1 ++ s2 ≠ "".
Proof. destruct s1; simpl; [done | discriminate]. Qed.

Lemma app_nonempty_l (s1 s2 : string) : s1 ≠ "" → s1 ++ s2 ≠ "".
Proof. destruct s1; simpl; [done | discriminate]. Qed.

Lemma hexDigit_nonempty (d : N) : (d < 16)%N → net.hexDigit d ≠ "".
Proof.
  intros Hd. unfold net.hexDigit.
  assert (N.to_nat d < 16)%nat as Hn by lia.
  revert Hn. generalize (N.to_nat d). intros n Hn.
  do 16 (destruct n as [|n]; [discriminate|]). lia.
Qed.

Lemma hexDigit_mod_nonempty (x : N) : net.hexDigit (x mod 16) ≠ "".
Proof. apply hexDigit_nonempty. apply N.mod_lt. lia. Qed.

Lemma appendHex_nonempty (x : N) : net.appendHex x ≠ "".
Proof.
  unfold net.appendHex.
  destruct (N.leb 4096 x); [|destruct (N.leb 256 x) eqn:E1;
    [|destruct (N.leb 16 x) eqn:E2]].
  - do 3 apply app_nonempty_r. apply hexDigit_mod_nonempty.
  - do 2 apply app_nonempty_r. apply hexDigit_mod_nonempty.
  - apply app_nonempty_r. apply hexDigit_mod_nonempty.
  - apply hexDigit_nonempty. apply N.leb_gt in E2. lia.
Qed.

Lemma emit6_first_nonempty (fuel : nat) (gs : list N) (zs ze : nat) :
  net.emit6 (S fuel) 0 gs zs ze ≠ "".
Proof.
  destruct zs as [|zs].
  - discriminate.
  - change (net.emit6 (S fuel) 0 gs (S zs) ze)
      with ("" ++ net.appendHex (nth 0 gs 0%N)
               ++ net.emit6 fuel 1 gs (S zs) ze).
    apply app_nonempty_r, app_nonempty_l, appendHex_nonempty.
Qed.

Lemma string6_nonempty (ip : net.IP) : net.string6 ip ≠ "".
Proof.
  unfold net.string6. destruct (net.zeroSpan _ _ _) as [zs ze].
  apply emit6_first_nonempty.
Qed.

Lemma IP_String_nonempty (ip : net.IP) : net.IP_String ip ≠ "".
Proof.
  unfold net.IP_String.
  destruct (decide _); [discriminate|].
  destruct (decide _); [discriminate|].
  destruct (net.To4 ip).
  - unfold net.string4. apply app_nonempty_r. discriminate.
  - apply string6_nonempty.
Qed.

End IPText.

(** ** Broadcast-Listen: the consumer of discovered entries *)

Section MdnsConsumer.

Variable range : mdns.RangeOrder.

(** With an IPv4 address in the entry, the dial target is built from
    the first one; the IPv6 addresses are never looked at, because the
    text of an address is never empty. *)
Lemma consumeEntry_first_ipv4 (st : mdns.Consumer) (entry : mdns.ServiceEntry)
    (ip4 : net.IP) (rest : list net.IP) :
  mdns.TTL entry ≠ 0%N →
  mdns.AddrIPv4 entry = ip4 :: rest →
  let upstream :=
    mkUpstream (net.JoinHostPort (net.IP_String ip4)
                  (strconv.Itoa (mdns.Port entry))) in
  let active := <[mdns.Instance entry := upstream]> (mdns.activeServices st) in
  mdns.consumeEntry range st entry
  = Done {| mdns.activeServices := active;
            mdns.provider := mdns.updateUpstreams range (mdns.provider st) active |}.
Proof.
  intros Httl Hv4. unfold mdns.consumeEntry.
  apply N.eqb_neq in Httl. rewrite Httl, Hv4. simpl.
  pose proof (IP_String_nonempty ip4) as Hne.
  apply String.eqb_neq in Hne. rewrite Hne. simpl. by rewrite Hne.
Qed.

(** Without an IPv4 address the consumer indexes an empty slice. *)
Lemma consumeEntry_no_ipv4 (st : mdns.Consumer) (entry : mdns.ServiceEntry) :
  mdns.TTL entry ≠ 0%N →
  mdns.AddrIPv4 entry = [] →
  mdns.consumeEntry range st entry = Panic "index out of range [0] with length 0".
Proof.
  intros Httl Hv4. unfold mdns.consumeEntry.
  apply N.eqb_neq in Httl. by rewrite Httl, Hv4.
Qed.

End MdnsConsumer.

(** C1 (at the failing input).  An entry with TTL 120, no IPv4 address
    and the IPv6 address fe80::1 does not resolve to the IPv6 dial
    target: the consumer panics on [entry.AddrIPv4[0]], whatever its
    state and whatever order the map is ranged in. *)
Theorem mdns_ipv6_only_entry_panics :
  ∀ (range : mdns.RangeOrder) (st : mdns.Consumer),
    mdns.consumeEntry range st samples.ipv6_only_entry
    = Panic "index out of range [0] with length 0".
Proof. intros range st. by apply consumeEntry_no_ipv4. Qed.

(** With both families present the IPv4 address is the one dialled. *)
Example mdns_dual_stack_uses_ipv4 :
  mdns.activeServices <$>
    (match mdns.consumeEntry mdns.range_listed samples.one_instance
             samples.dual_stack_entry with
     | Done st => Some st
     | Panic _ => None
     end)
  = Some (<["printer" := mkUpstream "192.168.1.7:8080"]>
            (<["nas" := mkUpstream "192.168.1.9:80"]> ∅)).
Proof. by vm_compute. Qed.

(** C8.  A TTL-0 entry for an instance the consumer knows removes that
    instance's mapping and no other, and installs a snapshot that holds
    the upstreams of the remaining instances, each once and unchanged;
    put back together with the removed upstream it is the old set of
    upstreams.  A TTL-0 entry for an unknown instance changes neither
    the map nor the installed snapshot. *)
Theorem mdns_goodbye_removes_exactly_one
    (range : mdns.RangeOrder) (st : mdns.Consumer) (entry : mdns.ServiceEntry) :
  mdns.range_ok range →
  mdns.TTL entry = 0%N →
  match mdns.activeServices st !! mdns.Instance entry with
  | Some up =>
      ∃ st' : mdns.Consumer,
        mdns.consumeEntry range st entry = Done st'
        ∧ mdns.activeServices st'
          = delete (mdns.Instance entry) (mdns.activeServices st)
        ∧ mdns.activeServices st' !! mdns.Instance entry = None
        ∧ (∀ k : string, k ≠ mdns.Instance entry →
             mdns.activeServices st' !! k = mdns.activeServices st !! k)
        ∧ mdns.upstreams (mdns.provider st')
          ≡ₚ (map_to_list (mdns.activeServices st')).*2
        ∧ up :: mdns.upstreams (mdns.provider st')
          ≡ₚ (map_to_list (mdns.activeServices st)).*2
  | None => mdns.consumeEntry range st entry = Done st
  end.
Proof.
  intros Hrange Httl. unfold mdns.consumeEntry.
  apply N.eqb_eq in Httl. rewrite Httl.
  destruct (mdns.activeServices st !! mdns.Instance entry) as [up|] eqn:Hk;
    [|done].
  eexists. split; [done|]. cbn [mdns.activeServices mdns.provider].
  rewrite mdns_updateUpstreams_upstreams.
  repeat split.
  - apply lookup_delete_eq.
  - intros k Hne. by apply lookup_delete_ne.
  - apply Hrange.
  - rewrite (Hrange _).
    change (up :: (map_to_list (delete (mdns.Instance entry)
                                  (mdns.activeServices st))).*2)
      with (((mdns.Instance entry, up)
             :: map_to_list (delete (mdns.Instance entry)
                               (mdns.activeServices st))).*2).
    apply fmap_Permutation. by apply map_to_list_delete.
Qed.

Lemma mdns_goodbye_removes_exactly_one_witness :
  mdns.range_ok mdns.range_listed
  ∧ mdns.TTL samples.goodbye_entry = 0%N
  ∧ (∃ st' : mdns.Consumer,
       mdns.consumeEntry mdns.range_listed samples.two_instances
         samples.goodbye_entry = Done st'
       ∧ mdns.activeServices st'
         = delete "printer" (mdns.activeServices samples.two_instances)
       ∧ mdns.activeServices st' !! "printer" = None
       ∧ (∀ k : string, k ≠ "printer" →
            mdns.activeServices st' !! k
            = mdns.activeServices samples.two_instances !! k)
       ∧ mdns.upstreams (mdns.provider st')
         ≡ₚ (map_to_list (mdns.activeServices st')).*2
       ∧ mkUpstream "192.168.1.7:8080" :: mdns.upstreams (mdns.provider st')
         ≡ₚ (map_to_list (mdns.activeServices samples.two_instances)).*2).
Proof.
  assert (mdns.range_ok mdns.range_listed) as Hrange by (intros m; reflexivity).
  assert (mdns.TTL samples.goodbye_entry = 0%N) as Httl by reflexivity.
  split; [exact Hrange|]. split; [exact Httl|].
  exact (mdns_goodbye_removes_exactly_one mdns.range_listed
           samples.two_instances samples.goodbye_entry Hrange Httl).
Defined.

(** The two cases of C8 on the samples: "printer" leaves and "nas"
    stays; a goodbye for an instance that is not there is ignored. *)
Example mdns_goodbye_printer :
  mdns.consumeEntry mdns.range_listed samples.two_instances samples.goodbye_entry
  = Done samples.one_instance.
Proof. by vm_compute. Qed.

Example mdns_goodbye_unknown :
  mdns.consumeEntry mdns.range_listed samples.one_instance samples.goodbye_entry
  = Done samples.one_instance.
Proof. by vm_compute. Qed.

(** ** Dispatch layer without a provider *)

(** C2 (as amended).  With no provider selected, fetch and validate
    answer the error "no service discovery provider is configured";
    cleanup answers nil and leaves the layer as it is.  None of the
    three panics. *)
Theorem dispatch_without_provider :
  dynamic_sd.GetUpstreams (dynamic_sd.mkDynamicSD None)
  = Done ([], Some "no service discovery provider is configured")
  ∧ dynamic_sd.Validate (dynamic_sd.mkDynamicSD None)
    = Done (Some "no service discovery provider is configured")
  ∧ dynamic_sd.Cleanup (dynamic_sd.mkDynamicSD None)
    = Done (None, dynamic_sd.mkDynamicSD None).
Proof. by repeat split. Qed.

(** C2 (as stated) fails: cleanup without a provider returns no error. *)
Lemma dispatch_cleanup_without_provider_no_error :
  ¬ ∃ (e : error) (d' : dynamic_sd.DynamicSD),
      dynamic_sd.Cleanup (dynamic_sd.mkDynamicSD None) = Done (Some e, d').
Proof. intros (e & d' & H). discriminate H. Qed.

(** ** Registry-Push: cleanup *)

Section NacosCleanup.

Variables (np : nacos.NacosProvider) (cl : nacos.NamingClient).
Hypothesis Hclient : nacos.client np = Some cl.

(** The calls [Cleanup] makes when the registry refuses to unsubscribe:
    the unsubscribe, and nothing after it. *)
Lemma nacos_cleanup_unsubscribe_error (e : error) :
  nacos.unsubscribe_err cl = Some e →
  ∃ np' cl',
    nacos.Cleanup np
    = (Some ("unsubscribing from nacos service '" ++ nacos.ServiceName np
             ++ "': " ++ e), np')
    ∧ nacos.client np' = Some cl'
    ∧ nacos.calls cl'
      = (nacos.calls cl
         ++ [nacos.CallUnsubscribe (nacos.ServiceName np) (nacos.GroupName np)])%list.
Proof.
  intros He. unfold nacos.Cleanup. rewrite Hclient, He.
  eexists _, _. by repeat split.
Qed.

(** The calls [Cleanup] makes when unsubscribing succeeds: the
    unsubscribe, then the close. *)
Lemma nacos_cleanup_unsubscribe_ok :
  nacos.unsubscribe_err cl = None →
  ∃ np' cl',
    nacos.Cleanup np = (None, np')
    ∧ nacos.client np' = Some cl'
    ∧ nacos.calls cl'
      = (nacos.calls cl
         ++ [nacos.CallUnsubscribe (nacos.ServiceName np) (nacos.GroupName np);
             nacos.CallCloseClient])%list.
Proof.
  intros He. unfold nacos.Cleanup. rewrite Hclient, He.
  eexists _, _. repeat split. simpl. by rewrite <- app_assoc.
Qed.

End NacosCleanup.

(** C3 (at the failing input).  On a provisioned provider whose
    registry answers the unsubscribe with "request timeout", [Cleanup]
    returns the unsubscribe error and the client has not been asked to
    close: the only call made is the unsubscribe. *)
Theorem nacos_cleanup_skips_close_on_unsubscribe_error :
  ∃ (np' : nacos.NacosProvider) (cl' : nacos.NamingClient),
    nacos.Cleanup samples.nacos_unsubscribe_fails
    = (Some "unsubscribing from nacos service 'web': request timeout", np')
    ∧ nacos.client np' = Some cl'
    ∧ nacos.calls cl'
      = [nacos.CallSubscribe "web" "DEFAULT_GROUP" [];
         nacos.CallUnsubscribe "web" "DEFAULT_GROUP"]
    ∧ nacos.CallCloseClient ∉ nacos.calls cl'.
Proof.
  eexists _, _. repeat split. simpl.
  intros Hin. repeat (apply elem_of_cons in Hin as [Hin|Hin]; [discriminate|]).
  by apply elem_of_nil in Hin.
Qed.

(** ** Fetching from a provider *)

(** C4 (as amended).  A provider whose snapshot is empty answers a nil
    list and an error that names its service: "no healthy upstreams
    available for service: <name>" for Nacos and Consul, "no mDNS
    instances available for service: <name>" for mDNS.  A provider
    whose snapshot is not empty answers that snapshot and a nil error.
    No provider ever answers an empty list with a nil error. *)
Theorem fetch_empty_snapshot_is_error (p : providers.Provider) :
  (providers.upstreams p = [] →
   providers.GetUpstreams p
   = ([], Some match p with
               | providers.Nacos np =>
                   "no healthy upstreams available for service: "
                   ++ nacos.ServiceName np
               | providers.Consul cp =>
                   "no healthy upstreams available for service: "
                   ++ consul.ServiceName cp
               | providers.Mdns mp =>
                   "no mDNS instances available for service: "
                   ++ mdns.ServiceName mp
               end))
  ∧ (providers.upstreams p ≠ [] →
     providers.GetUpstreams p = (providers.upstreams p, None))
  ∧ providers.GetUpstreams p ≠ ([], None).
Proof.
  destruct p as [np|cp|mp]; simpl;
    [ unfold nacos.GetUpstreams; destruct (nacos.upstreams np)
    | unfold consul.GetUpstreams; destruct (consul.upstreams cp)
    | unfold mdns.GetUpstreams; destruct (mdns.upstreams mp) ];
    simpl; repeat split; try done.
Qed.

Lemma fetch_empty_snapshot_is_error_witness :
  providers.GetUpstreams (providers.Nacos samples.nacos_empty)
  = ([], Some "no healthy upstreams available for service: web")
  ∧ providers.GetUpstreams (providers.Consul samples.consul_serving)
    = ([mkUpstream "10.0.0.9:7000"], None).
Proof.
  split.
  - exact (proj1 (fetch_empty_snapshot_is_error
                    (providers.Nacos samples.nacos_empty)) eq_refl).
  - refine (proj1 (proj2 (fetch_empty_snapshot_is_error
                            (providers.Consul samples.consul_serving))) _).
    simpl. discriminate.
Defined.

(** C4 (as stated) fails on the message: the Nacos provider of service
    "web" with an empty snapshot does not answer "no upstreams available
    for service: web". *)
Lemma fetch_empty_snapshot_message_differs :
  providers.GetUpstreams (providers.Nacos samples.nacos_empty)
  ≠ ([], Some "no upstreams available for service: web").
Proof. discriminate. Qed.

(** ** Refreshing the snapshot *)

(** C5.  A Nacos notification that carries an error leaves the provider,
    and so its upstream list, as it was.  A Consul query that fails
    makes [updateUpstreams] return an error and leaves the provider,
    and so its upstream list, as it was; the same holds for a tick of
    the watch loop. *)
Theorem refresh_error_keeps_snapshot :
  (∀ (np : nacos.NacosProvider) (services : list nacos.Instance) (e : error),
     nacos.SubscribeCallback np services (Some e) = np
     ∧ nacos.upstreams (nacos.SubscribeCallback np services (Some e))
       = nacos.upstreams np)
  ∧ (∀ (cp : consul.ConsulProvider) (entries : list consul.ServiceEntry)
       (e : error),
       consul.updateUpstreams cp (entries, Some e)
       = (Some ("querying consul for service '" ++ consul.ServiceName cp
                ++ "': " ++ e), cp)
       ∧ consul.upstreams (snd (consul.updateUpstreams cp (entries, Some e)))
         = consul.upstreams cp
       ∧ consul.upstreams
           (consul.watchServiceChanges cp [consul.Tick (entries, Some e)])
         = consul.upstreams cp).
Proof. by repeat split. Qed.

(** C6.  A Nacos notification without error installs the dial targets
    of the instances that are both enabled and healthy, in the order
    delivered, and nothing else; the notification of the example
    installs the single upstream "10.0.0.1:8080". *)
Theorem nacos_push_installs_enabled_healthy :
  (∀ (np : nacos.NacosProvider) (services : list nacos.Instance),
     nacos.upstreams (nacos.SubscribeCallback np services None)
     = (λ i, mkUpstream (net.JoinHostPort (nacos.Ip i)
                           (strconv.FormatUint10 (nacos.Port i))))
       <$> List.filter (λ i, nacos.Enable i && nacos.Healthy i) services)
  ∧ (∀ np : nacos.NacosProvider,
       nacos.upstreams (nacos.SubscribeCallback np samples.push_notification None)
       = [mkUpstream "10.0.0.1:8080"]).
Proof.
  split.
  - intros np services. simpl. by rewrite nacos_append_loop.
  - intros np. by vm_compute.
Qed.

(** C7.  A Consul query without error installs, for every entry and in
    the order returned, the service address, or the node address when
    the service address is empty, joined with the service port; the
    answer of the example installs ["10.0.0.5:9000"]. *)
Theorem consul_poll_address_fallback :
  (∀ (cp : consul.ConsulProvider) (entries : list consul.ServiceEntry),
     fst (consul.updateUpstreams cp (entries, None)) = None
     ∧ consul.upstreams (snd (consul.updateUpstreams cp (entries, None)))
       = (λ e, mkUpstream
                 (net.JoinHostPort
                    (if decide (consul.Service_Address e = "")
                     then consul.Node_Address e
                     else consul.Service_Address e)
                    (strconv.Itoa (consul.Service_Port e))))
         <$> entries)
  ∧ (∀ cp : consul.ConsulProvider,
       consul.upstreams (snd (consul.updateUpstreams cp (samples.poll_answer, None)))
       = [mkUpstream "10.0.0.5:9000"]).
Proof.
  split.
  - intros cp entries. split; [done|]. simpl. rewrite consul_append_loop.
    simpl. apply list_fmap_ext. intros _ e _. unfold consul.dialOf.
    destruct (decide _) as [->|Hne]; [done|].
    apply String.eqb_neq in Hne. by rewrite Hne.
  - intros cp. by vm_compute.
Qed.

(** ** A refresh that succeeds with nothing to install *)

Section EmptyRefresh.

(** Ticks whose query fails leave the provider as it is. *)
Lemma consul_failed_ticks_keep (cp : consul.ConsulProvider)
    (failures : list (list consul.ServiceEntry * error)) :
  consul.watchServiceChanges cp
    ((λ f, consul.Tick (f.1, Some f.2)) <$> failures) = cp.
Proof.
  revert cp. induction failures as [|f failures IH]; intros cp; [done|].
  simpl. apply IH.
Qed.

(** Notifications that carry an error leave the provider as it is. *)
Lemma nacos_failed_pushes_keep (np : nacos.NacosProvider)
    (failures : list (list nacos.Instance * error)) :
  fold_left (λ np f, nacos.SubscribeCallback np f.1 (Some f.2)) failures np = np.
Proof.
  revert np. induction failures as [|f failures IH]; intros np; [done|].
  simpl. apply IH.
Qed.

Lemma filter_none (services : list nacos.Instance) :
  forallb (λ i, negb (nacos.Enable i && nacos.Healthy i)) services = true →
  List.filter (λ i, nacos.Enable i && nacos.Healthy i) services = [].
Proof.
  induction services as [|i services IH]; simpl; [done|].
  intros [Hi Hrest]%andb_prop. apply negb_true_iff in Hi. rewrite Hi. auto.
Qed.

End EmptyRefresh.

(** C10.  A Consul query that succeeds with no entry, and a Nacos
    notification without error in which no instance is both enabled
    and healthy, each install the empty list whatever was installed
    before; fetch then answers the unavailability error, and goes on
    doing so across any number of failed refreshes (failed ticks of
    the watch loop, notifications that carry an error). *)
Theorem empty_refresh_discards_snapshot :
  (∀ cp : consul.ConsulProvider,
     let cp' := snd (consul.updateUpstreams cp ([], None)) in
     fst (consul.updateUpstreams cp ([], None)) = None
     ∧ consul.upstreams cp' = []
     ∧ ∀ failures : list (list consul.ServiceEntry * error),
         consul.GetUpstreams
           (consul.watchServiceChanges cp'
              ((λ f, consul.Tick (f.1, Some f.2)) <$> failures))
         = ([], Some ("no healthy upstreams available for service: "
                      ++ consul.ServiceName cp)))
  ∧ (∀ (np : nacos.NacosProvider) (services : list nacos.Instance),
       forallb (λ i, negb (nacos.Enable i && nacos.Healthy i)) services = true →
       let np' := nacos.SubscribeCallback np services None in
       nacos.upstreams np' = []
       ∧ ∀ failures : list (list nacos.Instance * error),
           nacos.GetUpstreams
             (fold_left (λ np f, nacos.SubscribeCallback np f.1 (Some f.2))
                failures np')
           = ([], Some ("no healthy upstreams available for service: "
                        ++ nacos.ServiceName np))).
Proof.
  split.
  - intros cp. repeat split. intros failures.
    by rewrite consul_failed_ticks_keep.
  - intros np services Hnone. simpl.
    rewrite nacos_append_loop, (filter_none _ Hnone). split; [done|].
    intros failures. by rewrite nacos_failed_pushes_keep.
Qed.

Lemma empty_refresh_discards_snapshot_witness :
  forallb (λ i, negb (nacos.Enable i && nacos.Healthy i)) samples.all_filtered
  = true
  ∧ nacos.upstreams samples.nacos_unsubscribe_fails = [mkUpstream "10.0.0.1:8080"]
  ∧ nacos.upstreams
      (nacos.SubscribeCallback samples.nacos_unsubscribe_fails
         samples.all_filtered None) = []
  ∧ nacos.GetUpstreams
      (nacos.SubscribeCallback samples.nacos_unsubscribe_fails
         samples.all_filtered None)
    = ([], Some "no healthy upstreams available for service: web")
  ∧ consul.GetUpstreams
      (snd (consul.updateUpstreams samples.consul_serving ([], None)))
    = ([], Some "no healthy upstreams available for service: api").
Proof.
  assert (forallb (λ i, negb (nacos.Enable i && nacos.Healthy i))
            samples.all_filtered = true) as Hnone by reflexivity.
  pose proof (proj2 empty_refresh_discards_snapshot
                samples.nacos_unsubscribe_fails samples.all_filtered Hnone)
    as [Hempty Hfetch].
  pose proof (proj1 empty_refresh_discards_snapshot samples.consul_serving)
    as (_ & _ & Hconsul).
  split; [exact Hnone|]. split; [reflexivity|]. split; [exact Hempty|].
  split; [exact (Hfetch [])|exact (Hconsul [])].
Defined.

(** ** The snapshot under concurrent replacement and fetch *)

Section StoreInvariant.

Variable unavailable : error.

Lemma sum_zero_Forall {A : Type} (f : A → nat) (l : list A) :
  sum_list_with f l = 0%nat → Forall (λ x, f x = 0%nat) l.
Proof.
  induction l as [|x l IH]; simpl; intros H; constructor; [lia|].
  apply IH. lia.
Qed.

(** A replacement that has returned stays among the goroutines when
    another goroutine takes a step. *)
Lemma installed_step (m m' : store.Mem) (t t' : store.Thread)
    (l1 l2 : list store.Thread) (l : list Upstream) :
  store.step_thread unavailable m t = Some (m', t') →
  store.installed (l1 ++ t :: l2) l →
  store.installed (l1 ++ t' :: l2) l.
Proof.
  intros Hstep [->|Hin]; [by left|]. right.
  apply elem_of_app in Hin as [Hin|Hin]; [apply elem_of_app; by left|].
  apply elem_of_cons in Hin as [<-|Hin]; [discriminate Hstep|].
  apply elem_of_app. right. by apply elem_of_cons; right.
Qed.

(** A goroutine's invariant only looks at the slice header and at the
    replacements that have returned. *)
Lemma thread_inv_same_header (ts ts' : list store.Thread) (m m' : store.Mem)
    (t : store.Thread) :
  (∀ l, store.installed ts l → store.installed ts' l) →
  store.up_data m' = store.up_data m →
  store.up_len m' = store.up_len m →
  store.thread_inv unavailable ts m t →
  store.thread_inv unavailable ts' m' t.
Proof.
  intros Hmono Hd Hl. destruct t as [pc new|pc]; destruct pc; simpl;
    rewrite ?Hd, ?Hl; try done.
  all: intros (l & Hinst & ->); exists l; auto.
Qed.

(** Outside the critical sections it does not look at the header. *)
Lemma thread_inv_outside (ts ts' : list store.Thread) (m m' : store.Mem)
    (t : store.Thread) :
  (∀ l, store.installed ts l → store.installed ts' l) →
  store.replacing t = 0%nat →
  store.reading t = 0%nat →
  store.thread_inv unavailable ts m t →
  store.thread_inv unavailable ts' m' t.
Proof.
  intros Hmono. destruct t as [pc new|pc]; destruct pc; simpl; try done.
  intros _ _ (l & Hinst & ->); exists l; auto.
Qed.

Lemma threads_same_header (ts ts' : list store.Thread) (m m' : store.Mem)
    (l : list store.Thread) :
  (∀ l, store.installed ts l → store.installed ts' l) →
  store.up_data m' = store.up_data m →
  store.up_len m' = store.up_len m →
  Forall (store.thread_inv unavailable ts m) l →
  Forall (store.thread_inv unavailable ts' m') l.
Proof.
  intros Hmono Hd Hl Hinv. eapply Forall_impl; [exact Hinv|].
  intros t. by apply thread_inv_same_header.
Qed.

Lemma threads_outside (ts ts' : list store.Thread) (m m' : store.Mem)
    (l : list store.Thread) :
  (∀ l, store.installed ts l → store.installed ts' l) →
  sum_list_with store.replacing l = 0%nat →
  sum_list_with store.reading l = 0%nat →
  Forall (store.thread_inv unavailable ts m) l →
  Forall (store.thread_inv unavailable ts' m') l.
Proof.
  intros Hmono Hw%sum_zero_Forall Hr%sum_zero_Forall Hinv.
  induction Hinv as [|t l Ht Hl IH]; constructor.
  - apply Forall_cons in Hw as [Hw _]. apply Forall_cons in Hr as [Hr _].
    by apply (thread_inv_outside ts ts' m).
  - apply Forall_cons in Hw as [_ Hw]. apply Forall_cons in Hr as [_ Hr].
    by apply IH.
Qed.

Lemma sys_inv_init (ops : list store.Op) :
  store.sys_inv unavailable (store.init ops).
Proof.
  split; simpl; try done.
  - induction ops as [|[new|] l IH]; simpl; auto.
  - induction ops as [|[new|] l IH]; simpl; auto.
  - split; [done|by left].
  - apply Forall_fmap, Forall_forall. by intros [new|] Hin.
Qed.

(** Rebuilding the invariant of the goroutines around the one that took
    a step that left the slice header alone. *)
Lemma threads_rebuild_same_header (ts ts' : list store.Thread)
    (m m' : store.Mem) (t' : store.Thread) (l1 l2 : list store.Thread) :
  (∀ l, store.installed ts l → store.installed ts' l) →
  store.up_data m' = store.up_data m →
  store.up_len m' = store.up_len m →
  Forall (store.thread_inv unavailable ts m) l1 →
  Forall (store.thread_inv unavailable ts m) l2 →
  store.thread_inv unavailable ts' m' t' →
  Forall (store.thread_inv unavailable ts' m') (l1 ++ t' :: l2).
Proof.
  intros Hmono Hd Hl H1 H2 Ht.
  apply Forall_app. split; [|apply Forall_cons; split].
  - by apply (threads_same_header ts ts' m).
  - done.
  - by apply (threads_same_header ts ts' m).
Qed.

(** The same when the goroutine that took the step is the only one
    inside a critical section. *)
Lemma threads_rebuild_outside (ts ts' : list store.Thread)
    (m m' : store.Mem) (t' : store.Thread) (l1 l2 : list store.Thread) :
  (∀ l, store.installed ts l → store.installed ts' l) →
  (sum_list_with store.replacing l1 + sum_list_with store.replacing l2 = 0)%nat →
  (sum_list_with store.reading l1 + sum_list_with store.reading l2 = 0)%nat →
  Forall (store.thread_inv unavailable ts m) l1 →
  Forall (store.thread_inv unavailable ts m) l2 →
  store.thread_inv unavailable ts' m' t' →
  Forall (store.thread_inv unavailable ts' m') (l1 ++ t' :: l2).
Proof.
  intros Hmono Hw Hr H1 H2 Ht.
  apply Forall_app. split; [|apply Forall_cons; split].
  - apply (threads_outside ts ts' m); [done|lia|lia|done].
  - done.
  - apply (threads_outside ts ts' m); [done|lia|lia|done].
Qed.

(** One step of one goroutine keeps the invariant. *)
Lemma sys_inv_step_thread (m m' : store.Mem) (t t' : store.Thread)
    (l1 l2 : list store.Thread) :
  store.step_thread unavailable m t = Some (m', t') →
  store.sys_inv unavailable (store.mkSys m (l1 ++ t :: l2)) →
  store.sys_inv unavailable (store.mkSys m' (l1 ++ t' :: l2)).
Proof.
  intros Hstep [Hw Hr Hex Hwhole Hth]. simpl in *.
  pose proof (installed_step m m' t t' l1 l2) as Hmono.
  specialize (λ l, Hmono l Hstep).
  rewrite sum_list_with_app in Hw, Hr. simpl in Hw, Hr.
  apply Forall_app in Hth as [Hl1 Hth]. apply Forall_cons in Hth as [Ht Hl2].
  destruct m as [w r d n]. simpl in *.
  destruct t as [pc new|pc]; destruct pc; simpl in Hstep, Ht, Hw, Hr.
  - (* Lock *)
    destruct w; [discriminate|]. simpl in Hstep.
    destruct (0 <? r)%nat eqn:Hr0; [discriminate|].
    apply Nat.ltb_ge in Hr0. injection Hstep as <- <-.
    split; simpl; rewrite ?sum_list_with_app; simpl; try lia; try done.
    eapply (threads_rebuild_same_header _ _ (store.mkMem false r d n)); [exact Hmono|..]; done.
  - (* store of the data word *)
    injection Hstep as <- <-.
    destruct w; [|lia]. specialize (Hex eq_refl). subst r.
    split; simpl; rewrite ?sum_list_with_app; simpl; try lia; try done.
    eapply (threads_rebuild_outside _ _ (store.mkMem true 0 d n)); [exact Hmono|..]; try done; lia.
  - (* store of the length word *)
    injection Hstep as <- <-.
    destruct w; [|lia]. specialize (Hex eq_refl). subst r.
    split; simpl; rewrite ?sum_list_with_app; simpl; try lia; try done.
    eapply (threads_rebuild_outside _ _ (store.mkMem true 0 d n)); [exact Hmono|..]; try done; lia.
  - (* Unlock *)
    injection Hstep as <- <-.
    destruct w; [|lia]. specialize (Hex eq_refl). subst r.
    destruct Ht as [Hd Hn].
    split; simpl; rewrite ?sum_list_with_app; simpl; try lia; try done.
    + intros _. split; [by rewrite Hn, Hd|]. right. rewrite Hd.
      apply elem_of_app. right. by apply elem_of_cons; left.
    + eapply (threads_rebuild_same_header _ _ (store.mkMem true 0 d n)); [exact Hmono|..]; done.
  - discriminate.
  - (* RLock *)
    destruct w; [discriminate|]. injection Hstep as <- <-.
    split; simpl; rewrite ?sum_list_with_app; simpl; try lia; try done.
    + intros _. destruct (Hwhole eq_refl) as [Hn Hinst]. auto.
    + eapply (threads_rebuild_same_header _ _ (store.mkMem false r d n)); [exact Hmono|..]; done.
  - (* test of the length *)
    assert (w = false) as ->
      by (destruct w; [specialize (Hex eq_refl)|]; [lia|done]).
    destruct (Hwhole eq_refl) as [Hn Hinst].
    destruct (n =? 0)%nat eqn:Hn0; injection Hstep as <- <-; subst n.
    + apply Nat.eqb_eq in Hn0.
      split; simpl; rewrite ?sum_list_with_app; simpl; try lia; try done.
      * auto.
      * eapply (threads_rebuild_same_header _ _ (store.mkMem false r d (length d))); [exact Hmono|..]; try done.
        simpl. exists []. split; [by left|done].
    + apply Nat.eqb_neq in Hn0.
      split; simpl; rewrite ?sum_list_with_app; simpl; try lia; try done.
      * auto.
      * eapply (threads_rebuild_same_header _ _ (store.mkMem false r d (length d))); [exact Hmono|..]; done.
  - (* load of the data word *)
    injection Hstep as <- <-.
    split; simpl; rewrite ?sum_list_with_app; simpl; try lia; try done.
    + intros Hfree. destruct (Hwhole Hfree) as [Hn Hinst]. auto.
    + eapply (threads_rebuild_same_header _ _ (store.mkMem w r d n)); [exact Hmono|..]; done.
  - (* load of the length word *)
    assert (w = false) as ->
      by (destruct w; [specialize (Hex eq_refl)|]; [lia|done]).
    destruct (Hwhole eq_refl) as [Hn Hinst]. destruct Ht as [-> Hn0].
    injection Hstep as <- <-. subst n.
    split; simpl; rewrite ?sum_list_with_app; simpl; try lia; try done.
    + auto.
    + eapply (threads_rebuild_same_header _ _ (store.mkMem false r d (length d))); [exact Hmono|..]; try done.
      simpl. exists d. split; [auto|].
      unfold store.fetch_result. rewrite firstn_all.
      apply Nat.eqb_neq in Hn0. by rewrite Hn0.
  - (* RUnlock *)
    injection Hstep as <- <-.
    assert (w = false) as ->
      by (destruct w; [specialize (Hex eq_refl)|]; [lia|done]).
    destruct (Hwhole eq_refl) as [Hn Hinst].
    split; simpl; rewrite ?sum_list_with_app; simpl; try lia; try done.
    + auto.
    + eapply (threads_rebuild_same_header _ _ (store.mkMem false r d n)); [exact Hmono|..]; try done.
      simpl. destruct Ht as (l & Hl & ->). exists l. auto.
  - discriminate.
Qed.

Lemma sys_inv_step (i : nat) (s : store.Sys) :
  store.sys_inv unavailable s →
  store.sys_inv unavailable (store.step unavailable i s).
Proof.
  intros Hinv. unfold store.step.
  destruct (store.threads s !! i) as [t|] eqn:Hi; [|done].
  destruct (store.step_thread unavailable (store.mem s) t) as [[m' t']|] eqn:Hs;
    [|done].
  destruct s as [m l]. simpl in *.
  rewrite insert_take_drop by (by eapply lookup_lt_Some).
  apply (sys_inv_step_thread m m' t); [done|].
  by rewrite take_drop_middle.
Qed.

Lemma sys_inv_run (sched : list nat) (s : store.Sys) :
  store.sys_inv unavailable s →
  store.sys_inv unavailable (store.run unavailable sched s).
Proof.
  revert s. induction sched as [|i sched IH]; intros s Hinv; [done|].
  simpl. apply IH. by apply sys_inv_step.
Qed.

(** A goroutine keeps executing the call it was spawned for. *)
Lemma step_thread_call (m m' : store.Mem) (t t' : store.Thread) :
  store.step_thread unavailable m t = Some (m', t') →
  store.call_of t' = store.call_of t.
Proof.
  destruct t as [pc new|pc]; destruct pc; simpl; intros H;
    repeat case_match; by simplify_eq.
Qed.

Lemma step_calls (i : nat) (s : store.Sys) :
  store.call_of <$> store.threads (store.step unavailable i s)
  = store.call_of <$> store.threads s.
Proof.
  unfold store.step.
  destruct (store.threads s !! i) as [t|] eqn:Hi; [|done].
  destruct (store.step_thread unavailable (store.mem s) t) as [[m' t']|] eqn:Hs;
    [|done].
  simpl. rewrite list_fmap_insert, (step_thread_call _ _ _ _ Hs).
  apply list_insert_id. by rewrite list_lookup_fmap, Hi.
Qed.

Lemma run_calls (sched : list nat) (s : store.Sys) :
  store.call_of <$> store.threads (store.run unavailable sched s)
  = store.call_of <$> store.threads s.
Proof.
  revert s. induction sched as [|i sched IH]; intros s; [done|].
  simpl. by rewrite IH, step_calls.
Qed.

End StoreInvariant.

Lemma spawn_calls (ops : list store.Op) :
  store.call_of <$> (store.spawn <$> ops) = ops.
Proof.
  induction ops as [|[new|] l IH]; [done|..];
    rewrite !fmap_cons; simpl; by rewrite IH.
Qed.

(** C9.  Goroutines of one provider run any number of replacements and
    fetches under any schedule.  At every moment: every fetch that has
    returned has returned what [GetUpstreams] answers on one snapshot
    taken whole, the initial empty one or the list of one replacement
    that has returned (the unavailability error if that snapshot is
    empty, else the snapshot itself with a nil error); at most one
    replacement is between [Lock] and [Unlock], and while one is, no
    fetch is between [RLock] and [RUnlock]; and whenever [mu] is not
    held for writing the slice is one such snapshot, whole. *)
Theorem fetch_sees_one_whole_snapshot
    (unavailable : error) (ops : list store.Op) (sched : list nat) :
  let s := store.run unavailable sched (store.init ops) in
  store.call_of <$> store.threads s = ops
  ∧ (∀ l : list Upstream,
       store.installed (store.threads s) l → l = [] ∨ store.OpReplace l ∈ ops)
  ∧ (∀ (i : nat) (r : list Upstream * option error),
       store.threads s !! i = Some (store.Fetch (store.RReturned r)) →
       ∃ l : list Upstream,
         store.installed (store.threads s) l
         ∧ r = store.fetch_result unavailable l)
  ∧ (sum_list_with store.replacing (store.threads s) ≤ 1)%nat
  ∧ (sum_list_with store.replacing (store.threads s) = 1%nat →
     sum_list_with store.reading (store.threads s) = 0%nat)
  ∧ (store.mu_writer (store.mem s) = false →
     store.installed (store.threads s) (store.slice (store.mem s))).
Proof.
  intros s.
  pose proof (sys_inv_run unavailable sched _ (sys_inv_init unavailable ops))
    as [Hw Hr Hex Hwhole Hth].
  fold s in Hw, Hr, Hex, Hwhole, Hth.
  assert (store.call_of <$> store.threads s = ops) as Hcalls.
  { unfold s. rewrite run_calls. apply spawn_calls. }
  split; [exact Hcalls|]. split; [|split; [|split; [|split]]].
  - intros l [->|Hin]; [by left|]. right. rewrite <- Hcalls.
    change (store.OpReplace l) with (store.call_of (store.Replace store.WReturned l)).
    by apply list_elem_of_fmap_2.
  - intros i r Hi.
    eapply Forall_lookup_1 in Hth; [|exact Hi]. exact Hth.
  - rewrite Hw. destruct (store.mu_writer (store.mem s)); lia.
  - rewrite Hw, Hr. destruct (store.mu_writer (store.mem s)); [|lia].
    intros _. by apply Hex.
  - intros Hfree. destruct (Hwhole Hfree) as [Hlen Hinst].
    unfold store.slice. by rewrite Hlen, firstn_all.
Qed.

Lemma fetch_sees_one_whole_snapshot_witness :
  let s := store.run "no healthy upstreams available for service: web"
             samples.interleaved_schedule
             (store.init samples.two_replaces_two_fetches) in
  store.threads s !! 1%nat
  = Some (store.Fetch (store.RReturned ([mkUpstream "10.0.0.1:8080"], None)))
  ∧ store.threads s !! 3%nat
    = Some (store.Fetch
              (store.RReturned
                 ([mkUpstream "10.0.0.2:8080"; mkUpstream "10.0.0.3:8080"], None)))
  ∧ (∃ l : list Upstream,
       store.installed (store.threads s) l
       ∧ ([mkUpstream "10.0.0.1:8080"], None)
         = store.fetch_result "no healthy upstreams available for service: web" l)
  ∧ store.mu_writer (store.mem s) = false
  ∧ store.installed (store.threads s) (store.slice (store.mem s)).
Proof.
  intros s.
  assert (store.threads s !! 1%nat
          = Some (store.Fetch
                    (store.RReturned ([mkUpstream "10.0.0.1:8080"], None))))
    as H1 by reflexivity.
  assert (store.mu_writer (store.mem s) = false) as Hfree by reflexivity.
  pose proof (fetch_sees_one_whole_snapshot
                "no healthy upstreams available for service: web"
                samples.two_replaces_two_fetches samples.interleaved_schedule)
    as (_ & _ & Hfetch & _ & _ & Hwhole).
  split; [exact H1|]. split; [reflexivity|].
  split; [exact (Hfetch 1%nat _ H1)|].
  split; [exact Hfree|exact (Hwhole Hfree)].
Defined.

(** Between the two stores of a replacement the slice is a mix of the
    old length and the new array, here the first element of the second
    list; [mu] is then held for writing. *)
Example slice_torn_between_stores :
  let s := store.run "no healthy upstreams available for service: web"
             samples.mid_replace_schedule
             (store.init samples.two_replaces_two_fetches) in
  store.slice (store.mem s) = [mkUpstream "10.0.0.2:8080"]
  ∧ (store.OpReplace (store.slice (store.mem s))
     ∉ samples.two_replaces_two_fetches)
  ∧ store.mu_writer (store.mem s) = true.
Proof.
  intros s. split; [reflexivity|]. split; [|reflexivity].
  change (store.slice (store.mem s)) with [mkUpstream "10.0.0.2:8080"].
  unfold samples.two_replaces_two_fetches. intros Hin.
  repeat (apply elem_of_cons in Hin as [Hin|Hin]; [discriminate Hin|]).
  by apply elem_of_nil in Hin.
Qed.

(** A fetch on a fresh provider answers the unavailability error. *)
Example fetch_before_any_replace :
  (store.threads
     (store.run "no healthy upstreams available for service: web"
        [1; 1; 1]%nat (store.init samples.two_replaces_two_fetches))) !! 1%nat
  = Some (store.Fetch
            (store.RReturned
               ([], Some "no healthy upstreams available for service: web"))).
Proof. reflexivity. Qed.

(** * Further properties of the providers *)

(** ** The factory *)

(** X1.  [NewProvider] answers a provider for "nacos", "consul" and
    "mdns", of the implementation that was named and with a nil error;
    for any other name it answers nil and an error that quotes the name
    and lists the three supported ones.  It never answers both or
    neither. *)
Theorem NewProvider_by_name (name : string) :
  match providers.NewProvider name with
  | (Some (providers.Nacos np), None) => name = "nacos" ∧ np = nacos.New
  | (Some (providers.Consul cp), None) => name = "consul" ∧ cp = consul.New
  | (Some (providers.Mdns mp), None) => name = "mdns" ∧ mp = mdns.New
  | (None, Some e) =>
      (name ∉ ["nacos"; "consul"; "mdns"])
      ∧ e = "unknown service discovery provider: '" ++ name
            ++ "'. supported providers are: nacos, consul, mdns"
  | _ => False
  end.
Proof.
  unfold providers.NewProvider.
  destruct (String.eqb name "nacos") eqn:E1;
    [by apply String.eqb_eq in E1|].
  destruct (String.eqb name "consul") eqn:E2;
    [by apply String.eqb_eq in E2|].
  destruct (String.eqb name "mdns") eqn:E3;
    [by apply String.eqb_eq in E3|].
  apply String.eqb_neq in E1, E2, E3. split; [|done].
  intros Hin. repeat (apply elem_of_cons in Hin as [Hin|Hin]; [done|]).
  by apply elem_of_nil in Hin.
Qed.

(** X2.  A provider that comes straight from the factory is not usable
    yet: it has no upstream, validation rejects it, and fetch answers
    its unavailability error. *)
Theorem fresh_provider_unconfigured (name : string) (p : providers.Provider) :
  providers.NewProvider name = (Some p, None) →
  providers.upstreams p = []
  ∧ providers.ServiceName p = ""
  ∧ is_Some (providers.Validate p)
  ∧ ∃ e : error, providers.GetUpstreams p = ([], Some e).
Proof.
  unfold providers.NewProvider. intros H.
  repeat case_match; simplify_eq; repeat split; eauto.
Qed.

Lemma fresh_provider_unconfigured_witness :
  providers.NewProvider "consul" = (Some (providers.Consul consul.New), None)
  ∧ providers.upstreams (providers.Consul consul.New) = []
  ∧ providers.ServiceName (providers.Consul consul.New) = ""
  ∧ is_Some (providers.Validate (providers.Consul consul.New))
  ∧ ∃ e : error,
      providers.GetUpstreams (providers.Consul consul.New) = ([], Some e).
Proof.
  assert (providers.NewProvider "consul"
          = (Some (providers.Consul consul.New), None)) as H by reflexivity.
  split; [exact H|].
  exact (fresh_provider_unconfigured "consul" _ H).
Defined.

(** X3.  Validation accepts a provider exactly when its required fields
    are set: server address, server port and service name for Nacos,
    the service name for Consul and for mDNS. *)
Theorem Validate_accepts_iff (p : providers.Provider) :
  providers.Validate p = None ↔
  match p with
  | providers.Nacos np =>
      nacos.ServerAddr np ≠ "" ∧ nacos.ServerPort np ≠ 0%N
      ∧ nacos.ServiceName np ≠ ""
  | providers.Consul cp => consul.ServiceName cp ≠ ""
  | providers.Mdns mp => mdns.ServiceName mp ≠ ""
  end.
Proof.
  destruct p as [np|cp|mp]; simpl.
  - unfold nacos.Validate.
    destruct (String.eqb (nacos.ServerAddr np) "") eqn:E1;
      [apply String.eqb_eq in E1; split; [done|tauto]|].
    destruct (N.eqb (nacos.ServerPort np) 0) eqn:E2;
      [apply N.eqb_eq in E2; split; [done|tauto]|].
    destruct (String.eqb (nacos.ServiceName np) "") eqn:E3;
      [apply String.eqb_eq in E3; split; [done|tauto]|].
    apply String.eqb_neq in E1, E3. apply N.eqb_neq in E2. done.
  - unfold consul.Validate.
    destruct (String.eqb (consul.ServiceName cp) "") eqn:E;
      [apply String.eqb_eq in E|apply String.eqb_neq in E]; split; done.
  - unfold mdns.Validate.
    destruct (String.eqb (mdns.ServiceName mp) "") eqn:E;
      [apply String.eqb_eq in E|apply String.eqb_neq in E]; split; done.
Qed.

Lemma Validate_accepts_iff_witness :
  providers.Validate (providers.Nacos samples.nacos_empty) = None
  ∧ is_Some (providers.Validate (providers.Nacos nacos.New)).
Proof.
  split.
  - apply (proj2 (Validate_accepts_iff (providers.Nacos samples.nacos_empty))).
    by repeat split.
  - destruct (providers.Validate (providers.Nacos nacos.New)) eqn:E; [eauto|].
    apply (proj1 (Validate_accepts_iff (providers.Nacos nacos.New))) in E.
    by destruct E as [E _].
Defined.

(** Which field a Nacos provider is told to set first. *)
Lemma nacos_Validate_first_missing (np : nacos.NacosProvider) :
  nacos.ServerAddr np = "" →
  nacos.Validate np = Some "nacos provider: server_addr is required".
Proof. unfold nacos.Validate. by intros ->. Qed.

(** ** The dispatch layer *)

(** X4.  Whatever its state, the dispatch layer's fetch does not panic
    and answers either an error or a list that is not empty; with a
    provider selected the answer is the provider's. *)
Theorem dispatch_fetch_never_empty_success (d : dynamic_sd.DynamicSD) :
  ∃ (ups : list Upstream) (e : option error),
    dynamic_sd.GetUpstreams d = Done (ups, e)
    ∧ (e = None → ups ≠ [])
    ∧ (is_Some e → ups = [])
    ∧ (∀ p, dynamic_sd.provider d = Some p →
         (ups, e) = providers.GetUpstreams p).
Proof.
  destruct d as [[p|]]; unfold dynamic_sd.GetUpstreams;
    cbn [dynamic_sd.provider].
  - destruct (providers.GetUpstreams p) as [ups e] eqn:Hget.
    exists ups, e. split; [done|].
    assert ((e = None → ups ≠ []) ∧ (is_Some e → ups = [])) as [H1 H2].
    { destruct p as [np|cp|mp]; simpl in Hget;
        [ unfold nacos.GetUpstreams in Hget; destruct (nacos.upstreams np)
        | unfold consul.GetUpstreams in Hget; destruct (consul.upstreams cp)
        | unfold mdns.GetUpstreams in Hget; destruct (mdns.upstreams mp) ];
        simpl in Hget; simplify_eq; split; try done; by intros [? ?]. }
    split; [exact H1|]. split; [exact H2|]. by intros q [= <-].
  - eexists _, _. repeat split; try done.
Qed.

(** ** Stopping a provider *)

(** X5.  Cleaning a provider up does not touch its snapshot or its
    service name: after a cleanup that did not panic, fetch answers
    what it answered before. *)
Theorem Cleanup_keeps_snapshot (p p' : providers.Provider) (e : option error) :
  providers.Cleanup p = Done (e, p') →
  providers.upstreams p' = providers.upstreams p
  ∧ providers.ServiceName p' = providers.ServiceName p
  ∧ providers.GetUpstreams p' = providers.GetUpstreams p.
Proof.
  destruct p as [np|cp|mp]; simpl.
  - unfold nacos.Cleanup.
    destruct (nacos.client np) as [cl|]; [destruct (nacos.unsubscribe_err cl)|];
      intros [= <- <-]; done.
  - unfold consul.Cleanup.
    destruct (consul.stopChan cp) as [[|]|]; intros [= <- <-]; done.
  - unfold mdns.Cleanup.
    destruct (mdns.cancelFunc mp); intros [= <- <-]; done.
Qed.

Lemma Cleanup_keeps_snapshot_witness :
  ∃ p' : providers.Provider,
    providers.Cleanup (providers.Consul samples.consul_serving) = Done (None, p')
    ∧ providers.GetUpstreams p' = ([mkUpstream "10.0.0.9:7000"], None).
Proof.
  eexists. split; [reflexivity|].
  exact (proj2 (proj2 (Cleanup_keeps_snapshot
                         (providers.Consul samples.consul_serving) _ None
                         eq_refl))).
Defined.

(** X6.  The first cleanup of a provisioned Consul provider closes the
    stop channel and answers nil; a second cleanup panics on the closed
    channel, also when it is made through the dispatch layer. *)
Theorem consul_Cleanup_twice_panics (cp : consul.ConsulProvider) :
  consul.stopChan cp = Some consul.ChanOpen →
  ∃ cp' : consul.ConsulProvider,
    consul.Cleanup cp = Done (None, cp')
    ∧ consul.stopChan cp' = Some consul.ChanClosed
    ∧ consul.Cleanup cp' = Panic "close of closed channel"
    ∧ dynamic_sd.Cleanup (dynamic_sd.mkDynamicSD (Some (providers.Consul cp')))
      = Panic "close of closed channel".
Proof.
  intros Hopen. unfold dynamic_sd.Cleanup, providers.Cleanup, consul.Cleanup.
  rewrite Hopen. eexists. by repeat split.
Qed.

Lemma consul_Cleanup_twice_panics_witness :
  consul.stopChan samples.consul_serving = Some consul.ChanOpen
  ∧ ∃ cp' : consul.ConsulProvider,
      consul.Cleanup samples.consul_serving = Done (None, cp')
      ∧ consul.stopChan cp' = Some consul.ChanClosed
      ∧ consul.Cleanup cp' = Panic "close of closed channel"
      ∧ dynamic_sd.Cleanup (dynamic_sd.mkDynamicSD (Some (providers.Consul cp')))
        = Panic "close of closed channel".
Proof.
  split; [reflexivity|].
  exact (consul_Cleanup_twice_panics samples.consul_serving eq_refl).
Defined.


(** ** Registry-Push: start and stop *)

(** X8.  When the registry refuses the subscription, [Provision]
    answers the subscription error, yet keeps the client it has just
    constructed: the only call made on it is the subscription, it is
    not closed. *)
Theorem nacos_Provision_subscribe_error
    (np : nacos.NacosProvider) (cl : nacos.NamingClient) (e : error) :
  nacos.subscribe_err cl = Some e →
  ∃ (np' : nacos.NacosProvider) (cl' : nacos.NamingClient),
    nacos.Provision np (Some cl, None)
    = Done (Some ("subscribing to nacos service '" ++ nacos.ServiceName np
                  ++ "': " ++ e), np')
    ∧ nacos.client np' = Some cl'
    ∧ nacos.calls cl'
      = (nacos.calls cl
         ++ [nacos.CallSubscribe (nacos.ServiceName np) (nacos.GroupName np)
               (nacos.Clusters np)])%list
    ∧ nacos.upstreams np' = nacos.upstreams np.
Proof.
  intros He. unfold nacos.Provision, nacos.subscribeToServiceChanges. simpl.
  rewrite He. eexists _, _. by repeat split.
Qed.

Lemma nacos_Provision_subscribe_error_witness :
  nacos.subscribe_err samples.naming_client_no_subscribe
  = Some "server is not healthy"
  ∧ ∃ (np' : nacos.NacosProvider) (cl' : nacos.NamingClient),
      nacos.Provision samples.nacos_empty
        (Some samples.naming_client_no_subscribe, None)
      = Done (Some "subscribing to nacos service 'web': server is not healthy",
              np')
      ∧ nacos.client np' = Some cl'
      ∧ nacos.calls cl' = [nacos.CallSubscribe "web" "DEFAULT_GROUP" []]
      ∧ nacos.upstreams np' = [].
Proof.
  split; [reflexivity|].
  exact (nacos_Provision_subscribe_error samples.nacos_empty
           samples.naming_client_no_subscribe _ eq_refl).
Defined.

(** X9.  [Provision] answers nil exactly when the client could be
    constructed and the registry accepted the subscription; with a
    client in hand it never panics. *)
Theorem nacos_Provision_succeeds_iff
    (np : nacos.NacosProvider) (cl : nacos.NamingClient) (err : option error) :
  (∃ np' : nacos.NacosProvider,
     nacos.Provision np (Some cl, err) = Done (None, np'))
  ↔ err = None ∧ nacos.subscribe_err cl = None.
Proof.
  unfold nacos.Provision, nacos.subscribeToServiceChanges. simpl. split.
  - intros [np' H]. destruct err; [done|].
    destruct (nacos.subscribe_err cl); [done|done].
  - intros [-> ->]. by eexists.
Qed.

Lemma nacos_Provision_succeeds_iff_witness :
  (∃ np' : nacos.NacosProvider,
     nacos.Provision samples.nacos_empty (Some samples.naming_client_ok, None)
     = Done (None, np'))
  ∧ ¬ (∃ np' : nacos.NacosProvider,
         nacos.Provision samples.nacos_empty
           (Some samples.naming_client_no_subscribe, None) = Done (None, np')).
Proof.
  split.
  - apply (proj2 (nacos_Provision_succeeds_iff samples.nacos_empty
                    samples.naming_client_ok None)).
    by split.
  - intros H.
    apply (proj1 (nacos_Provision_succeeds_iff samples.nacos_empty
                    samples.naming_client_no_subscribe None)) in H.
    by destruct H as [_ H].
Defined.

(** X10.  A provider that is provisioned and then cleaned up, with a
    registry that accepts both, has made exactly three calls on its
    client: the subscription for (service, group, clusters), the
    unsubscription for the same service and group, and the close. *)
Theorem nacos_Provision_then_Cleanup
    (np : nacos.NacosProvider) (cl : nacos.NamingClient) :
  nacos.subscribe_err cl = None →
  nacos.unsubscribe_err cl = None →
  ∃ (np1 np2 : nacos.NacosProvider) (cl2 : nacos.NamingClient),
    nacos.Provision np (Some cl, None) = Done (None, np1)
    ∧ nacos.Cleanup np1 = (None, np2)
    ∧ nacos.client np2 = Some cl2
    ∧ nacos.calls cl2
      = (nacos.calls cl
         ++ [nacos.CallSubscribe (nacos.ServiceName np) (nacos.GroupName np)
               (nacos.Clusters np);
             nacos.CallUnsubscribe (nacos.ServiceName np) (nacos.GroupName np);
             nacos.CallCloseClient])%list
    ∧ nacos.upstreams np2 = nacos.upstreams np.
Proof.
  intros Hsub Hunsub.
  unfold nacos.Provision, nacos.subscribeToServiceChanges. simpl.
  rewrite Hsub. eexists _, _, _. split; [done|].
  unfold nacos.Cleanup. simpl. rewrite Hunsub.
  repeat split. simpl. by rewrite <- !app_assoc.
Qed.

Lemma nacos_Provision_then_Cleanup_witness :
  nacos.subscribe_err samples.naming_client_ok = None
  ∧ nacos.unsubscribe_err samples.naming_client_ok = None
  ∧ ∃ (np1 np2 : nacos.NacosProvider) (cl2 : nacos.NamingClient),
      nacos.Provision samples.nacos_empty (Some samples.naming_client_ok, None)
      = Done (None, np1)
      ∧ nacos.Cleanup np1 = (None, np2)
      ∧ nacos.client np2 = Some cl2
      ∧ nacos.calls cl2
        = [nacos.CallSubscribe "web" "DEFAULT_GROUP" [];
           nacos.CallUnsubscribe "web" "DEFAULT_GROUP";
           nacos.CallCloseClient]
      ∧ nacos.upstreams np2 = [].
Proof.
  split; [reflexivity|]. split; [reflexivity|].
  exact (nacos_Provision_then_Cleanup samples.nacos_empty
           samples.naming_client_ok eq_refl eq_refl).
Defined.

(** ** Registry-Push: a run of notifications *)

Section NacosDeliver.

Lemma deliver_app (np : nacos.NacosProvider)
    (ns1 ns2 : list (list nacos.Instance * option error)) :
  nacos.deliver np (ns1 ++ ns2) = nacos.deliver (nacos.deliver np ns1) ns2.
Proof. apply fold_left_app. Qed.

Lemma deliver_errors (np : nacos.NacosProvider)
    (ns : list (list nacos.Instance * option error)) :
  Forall (λ n, is_Some n.2) ns → nacos.deliver np ns = np.
Proof.
  induction 1 as [|[services err] ns [e He] _ IH]; [done|].
  simpl in He. subst err. exact IH.
Qed.

End NacosDeliver.

(** X11.  Notifications only ever change the upstream list: the
    configuration and the client of the provider are what they were,
    whatever is delivered. *)
Theorem nacos_deliver_frame (np : nacos.NacosProvider)
    (ns : list (list nacos.Instance * option error)) :
  nacos.set_upstreams (nacos.upstreams np) (nacos.deliver np ns) = np.
Proof.
  revert np. induction ns as [|[services err] ns IH]; intros np.
  - by destruct np.
  - change (nacos.deliver np ((services, err) :: ns))
      with (nacos.deliver (nacos.SubscribeCallback np services err) ns).
    destruct err as [e|]; [apply IH|].
    specialize (IH (nacos.SubscribeCallback np services None)).
    destruct (nacos.deliver _ ns), np. simpl in *. by simplify_eq.
Qed.

(** X12.  After any run of notifications the snapshot is the one built
    from the last notification that carried no error: what came before
    it is forgotten and the failed ones after it change nothing. *)
Theorem nacos_last_good_notification_wins (np : nacos.NacosProvider)
    (before after : list (list nacos.Instance * option error))
    (services : list nacos.Instance) :
  Forall (λ n, is_Some n.2) after →
  nacos.upstreams (nacos.deliver np (before ++ (services, None) :: after))
  = nacos.dialOf
    <$> List.filter (λ i, nacos.Enable i && nacos.Healthy i) services.
Proof.
  intros Hafter. rewrite deliver_app.
  change (nacos.deliver (nacos.deliver np before) ((services, None) :: after))
    with (nacos.deliver
            (nacos.SubscribeCallback (nacos.deliver np before) services None)
            after).
  rewrite (deliver_errors _ _ Hafter). simpl. by rewrite nacos_append_loop.
Qed.

Lemma nacos_last_good_notification_wins_witness :
  Forall (λ n : list nacos.Instance * option error, is_Some n.2)
    [(samples.push_notification, Some "push timeout")]
  ∧ nacos.upstreams
      (nacos.deliver samples.nacos_unsubscribe_fails
         ([(samples.push_notification, None)]
          ++ (samples.all_filtered, None)
          :: [(samples.push_notification, Some "push timeout")]))
    = [].
Proof.
  assert (Forall (λ n : list nacos.Instance * option error, is_Some n.2)
            [(samples.push_notification, Some "push timeout")]) as H
    by (repeat constructor; simpl; eauto).
  split; [exact H|].
  exact (nacos_last_good_notification_wins samples.nacos_unsubscribe_fails
           [(samples.push_notification, None)]
           [(samples.push_notification, Some "push timeout")]
           samples.all_filtered H).
Defined.

(** ** Registry-Poll: start, watch loop and stop *)

Section ConsulWatch.

Lemma watch_app (cp : consul.ConsulProvider) (evs1 evs2 : list consul.WatchEvent) :
  consul.Stop ∉ evs1 →
  consul.watchServiceChanges cp (evs1 ++ evs2)
  = consul.watchServiceChanges (consul.watchServiceChanges cp evs1) evs2.
Proof.
  revert cp. induction evs1 as [|[resp|] evs1 IH]; intros cp Hstop; [done|..].
  - simpl. apply IH. intros Hin. apply Hstop. by right.
  - exfalso. apply Hstop. by left.
Qed.

Lemma watch_failed (cp : consul.ConsulProvider) (evs : list consul.WatchEvent) :
  Forall (λ ev, ∃ es e, ev = consul.Tick (es, Some e)) evs →
  consul.watchServiceChanges cp evs = cp.
Proof.
  induction 1 as [|ev evs (es & e & ->) _ IH]; [done|]. exact IH.
Qed.

End ConsulWatch.

(** X13.  The watch loop ends at the stop signal: whatever arrives
    after it, ticks included, is not looked at. *)
Theorem consul_watch_ends_at_stop (cp : consul.ConsulProvider)
    (evs1 evs2 : list consul.WatchEvent) :
  consul.watchServiceChanges cp (evs1 ++ consul.Stop :: evs2)
  = consul.watchServiceChanges cp evs1.
Proof.
  revert cp. induction evs1 as [|[resp|] evs1 IH]; intros cp; [done|..].
  - simpl. apply IH.
  - done.
Qed.

(** X14.  The watch loop only ever changes the upstream list: the
    configuration and the stop channel are what they were. *)
Theorem consul_watch_frame (cp : consul.ConsulProvider)
    (evs : list consul.WatchEvent) :
  consul.set_upstreams (consul.upstreams cp) (consul.watchServiceChanges cp evs)
  = cp.
Proof.
  revert cp. induction evs as [|[[es err]|] evs IH]; intros cp.
  - by destruct cp.
  - simpl. destruct err as [e|]; simpl; [apply IH|].
    specialize (IH (consul.set_upstreams
                      (fold_left consul.appendEntry es []) cp)).
    destruct (consul.watchServiceChanges _ evs), cp. simpl in *.
    by simplify_eq.
  - by destruct cp.
Qed.

(** X15.  As long as no stop signal has arrived, the snapshot after a
    run of ticks is the one built from the last tick whose query
    succeeded: earlier ticks are forgotten and the failed ones after
    it change nothing. *)
Theorem consul_last_good_tick_wins (cp : consul.ConsulProvider)
    (before after : list consul.WatchEvent) (entries : list consul.ServiceEntry) :
  consul.Stop ∉ before →
  Forall (λ ev, ∃ es e, ev = consul.Tick (es, Some e)) after →
  consul.upstreams
    (consul.watchServiceChanges cp
       (before ++ consul.Tick (entries, None) :: after))
  = consul.dialOf <$> entries.
Proof.
  intros Hstop Hafter. rewrite (watch_app _ _ _ Hstop). simpl.
  rewrite (watch_failed _ _ Hafter). simpl. by rewrite consul_append_loop.
Qed.

Lemma consul_last_good_tick_wins_witness :
  (consul.Stop ∉ [consul.Tick ([], None)])
  ∧ Forall (λ ev, ∃ es e, ev = consul.Tick (es, Some e))
      [consul.Tick ([], Some "connection refused")]
  ∧ consul.upstreams
      (consul.watchServiceChanges samples.consul_serving
         ([consul.Tick ([], None)]
          ++ consul.Tick (samples.poll_answer, None)
          :: [consul.Tick ([], Some "connection refused")]))
    = [mkUpstream "10.0.0.5:9000"].
Proof.
  assert (consul.Stop ∉ [consul.Tick ([], None)]) as H1.
  { intros Hin. apply elem_of_cons in Hin as [Hin|Hin]; [discriminate Hin|].
    by apply elem_of_nil in Hin. }
  assert (Forall (λ ev, ∃ es e, ev = consul.Tick (es, Some e))
            [consul.Tick ([], Some "connection refused")]) as H2
    by (repeat constructor; eauto).
  split; [exact H1|]. split; [exact H2|].
  exact (consul_last_good_tick_wins samples.consul_serving _ _
           samples.poll_answer H1 H2).
Defined.

(** X16.  With a client in hand, [Provision] of the Consul provider
    always answers nil and opens the stop channel; the first query
    either installs its entries or, when it fails, leaves the snapshot
    as it was. *)
Theorem consul_Provision_first_query (cp : consul.ConsulProvider)
    (resp : consul.QueryResult) :
  ∃ cp' : consul.ConsulProvider,
    consul.Provision cp None resp = (None, cp')
    ∧ consul.stopChan cp' = Some consul.ChanOpen
    ∧ consul.ServiceName cp' = consul.ServiceName cp
    ∧ consul.upstreams cp'
      = match resp.2 with
        | None => consul.dialOf <$> resp.1
        | Some _ => consul.upstreams cp
        end.
Proof.
  destruct resp as [entries [e|]]; eexists; repeat split.
  simpl. by rewrite consul_append_loop.
Qed.

(** X17.  When the first query answers at least one entry, the provider
    serves those entries as soon as [Provision] has returned, before
    any tick of the watch loop. *)
Theorem consul_Provision_serves_at_once (cp : consul.ConsulProvider)
    (entries : list consul.ServiceEntry) :
  entries ≠ [] →
  consul.GetUpstreams (snd (consul.Provision cp None (entries, None)))
  = (consul.dialOf <$> entries, None).
Proof.
  intros Hne. unfold consul.GetUpstreams. simpl.
  rewrite consul_append_loop. simpl.
  destruct entries as [|e entries]; [done|]. done.
Qed.

Lemma consul_Provision_serves_at_once_witness :
  samples.poll_answer ≠ []
  ∧ consul.GetUpstreams
      (snd (consul.Provision samples.consul_configured None
              (samples.poll_answer, None)))
    = ([mkUpstream "10.0.0.5:9000"], None).
Proof.
  assert (samples.poll_answer ≠ []) as H by discriminate.
  split; [exact H|].
  exact (consul_Provision_serves_at_once samples.consul_configured _ H).
Defined.

(** X18.  A Consul provider that has been provisioned, whether the
    client could be constructed or not and whatever the watch loop has
    received since, can be cleaned up once without panic: the cleanup
    answers nil and closes the stop channel. *)
Theorem consul_Provision_then_Cleanup (cp : consul.ConsulProvider)
    (clientErr : option error) (resp : consul.QueryResult)
    (evs : list consul.WatchEvent) :
  ∃ cp' : consul.ConsulProvider,
    consul.Cleanup
      (consul.watchServiceChanges
         (snd (consul.Provision cp clientErr resp)) evs)
    = Done (None, cp')
    ∧ consul.stopChan cp' = Some consul.ChanClosed.
Proof.
  set (cp1 := snd (consul.Provision cp clientErr resp)).
  assert (consul.stopChan cp1 = Some consul.ChanOpen) as Hopen.
  { unfold cp1, consul.Provision. destruct clientErr; [done|].
    destruct resp as [es [e|]]; done. }
  assert (∀ cp0, consul.stopChan (consul.watchServiceChanges cp0 evs)
                 = consul.stopChan cp0) as Hkeep.
  { induction evs as [|[[es err]|] evs IH]; intros cp0; [done| |done].
    simpl. rewrite IH. by destruct err. }
  unfold consul.Cleanup. rewrite Hkeep, Hopen. eexists. by split.
Qed.

(** ** Broadcast-Listen: a run of the consumer *)

Section MdnsRun.

(** One entry makes the consumer panic exactly when it announces an
    instance without any IPv4 address. *)
Lemma consumeEntry_done_iff (range : mdns.RangeOrder) (st : mdns.Consumer)
    (entry : mdns.ServiceEntry) :
  (∃ st', mdns.consumeEntry range st entry = Done st')
  ↔ mdns.TTL entry = 0%N ∨ mdns.AddrIPv4 entry ≠ [].
Proof.
  destruct (decide (mdns.TTL entry = 0%N)) as [Httl|Httl].
  - split; [by left|]. intros _. unfold mdns.consumeEntry.
    apply N.eqb_eq in Httl. rewrite Httl.
    destruct (mdns.activeServices st !! mdns.Instance entry); by eexists.
  - destruct (mdns.AddrIPv4 entry) as [|ip4 rest] eqn:Hv4.
    + rewrite (consumeEntry_no_ipv4 range st entry Httl Hv4).
      split; [by intros [st' H]|]. by intros [H|H].
    + rewrite (consumeEntry_first_ipv4 range st entry ip4 rest Httl Hv4).
      split; [by right|]. intros _. by eexists.
Qed.

(** One entry keeps the snapshot an arrangement of the map's values. *)
Lemma consumeEntry_in_sync (range : mdns.RangeOrder) (st st' : mdns.Consumer)
    (entry : mdns.ServiceEntry) :
  mdns.range_ok range →
  mdns.upstreams (mdns.provider st) ≡ₚ (map_to_list (mdns.activeServices st)).*2 →
  mdns.consumeEntry range st entry = Done st' →
  mdns.upstreams (mdns.provider st') ≡ₚ (map_to_list (mdns.activeServices st')).*2.
Proof.
  intros Hrange Hsync.
  destruct (decide (mdns.TTL entry = 0%N)) as [Httl|Httl].
  - unfold mdns.consumeEntry. apply N.eqb_eq in Httl. rewrite Httl.
    destruct (mdns.activeServices st !! mdns.Instance entry);
      intros [= <-]; [|done].
    cbn [mdns.activeServices mdns.provider].
    rewrite mdns_updateUpstreams_upstreams. apply Hrange.
  - destruct (mdns.AddrIPv4 entry) as [|ip4 rest] eqn:Hv4.
    + by rewrite (consumeEntry_no_ipv4 range st entry Httl Hv4).
    + rewrite (consumeEntry_first_ipv4 range st entry ip4 rest Httl Hv4).
      intros [= <-]. cbn [mdns.activeServices mdns.provider].
      rewrite mdns_updateUpstreams_upstreams. apply Hrange.
Qed.

End MdnsRun.

(** X19.  Along any run of the consumer that does not panic, the
    installed snapshot stays an arrangement of the upstreams in the map
    of active instances: one upstream per instance identifier, however
    often an instance was announced. *)
Theorem mdns_snapshot_follows_map
    (inputs : list (mdns.RangeOrder * mdns.ServiceEntry))
    (st st' : mdns.Consumer) :
  Forall (λ i, mdns.range_ok i.1) inputs →
  mdns.upstreams (mdns.provider st) ≡ₚ (map_to_list (mdns.activeServices st)).*2 →
  mdns.runConsumer inputs st = Done st' →
  mdns.upstreams (mdns.provider st') ≡ₚ (map_to_list (mdns.activeServices st')).*2
  ∧ length (mdns.upstreams (mdns.provider st')) = size (mdns.activeServices st').
Proof.
  intros Hranges. revert st.
  induction Hranges as [|[range entry] inputs Hrange _ IH]; intros st Hsync Hrun.
  - injection Hrun as <-. split; [done|].
    by rewrite Hsync, length_fmap, length_map_to_list.
  - simpl in Hrun.
    destruct (mdns.consumeEntry range st entry) as [msg|st1] eqn:Hstep; [done|].
    apply (IH st1); [|done].
    by apply (consumeEntry_in_sync range st st1 entry).
Qed.

Lemma mdns_snapshot_follows_map_witness :
  Forall (λ i : mdns.RangeOrder * mdns.ServiceEntry, mdns.range_ok i.1)
    [(mdns.range_listed, samples.dual_stack_entry);
     (mdns.range_listed, samples.dual_stack_entry)]
  ∧ ∃ st' : mdns.Consumer,
      mdns.runConsumer
        [(mdns.range_listed, samples.dual_stack_entry);
         (mdns.range_listed, samples.dual_stack_entry)] samples.one_instance
      = Done st'
      ∧ mdns.upstreams (mdns.provider st')
        ≡ₚ (map_to_list (mdns.activeServices st')).*2
      ∧ length (mdns.upstreams (mdns.provider st'))
        = size (mdns.activeServices st')
      ∧ size (mdns.activeServices st') = 2%nat.
Proof.
  assert (mdns.range_ok mdns.range_listed) as Hok by (intros m; reflexivity).
  assert (Forall (λ i : mdns.RangeOrder * mdns.ServiceEntry, mdns.range_ok i.1)
            [(mdns.range_listed, samples.dual_stack_entry);
             (mdns.range_listed, samples.dual_stack_entry)]) as Hall
    by (repeat constructor; exact Hok).
  split; [exact Hall|].
  eexists. split; [vm_compute; reflexivity|].
  split; [|split; [|by vm_compute]].
  - refine (proj1 (mdns_snapshot_follows_map _ samples.one_instance _ Hall _ _));
      by vm_compute.
  - refine (proj2 (mdns_snapshot_follows_map _ samples.one_instance _ Hall _ _));
      by vm_compute.
Defined.

(** X20.  The consumer gets through a stream of entries without panic
    exactly when every entry that announces an instance (TTL not zero)
    carries at least one IPv4 address. *)
Theorem mdns_consumer_survives_iff
    (inputs : list (mdns.RangeOrder * mdns.ServiceEntry)) (st : mdns.Consumer) :
  (∃ st', mdns.runConsumer inputs st = Done st')
  ↔ Forall (λ i, mdns.TTL i.2 = 0%N ∨ mdns.AddrIPv4 i.2 ≠ []) inputs.
Proof.
  revert st. induction inputs as [|[range entry] inputs IH]; intros st.
  - split; [by constructor|]. intros _. by eexists.
  - rewrite Forall_cons. simpl. rewrite <- (consumeEntry_done_iff range st entry).
    destruct (mdns.consumeEntry range st entry) as [msg|st1] eqn:Hstep.
    + split; [by intros [st' H]|]. by intros [[st' H] _].
    + rewrite (IH st1). split; [|tauto]. intros H. split; [by eexists|done].
Qed.

Lemma mdns_consumer_survives_iff_witness :
  (∃ st', mdns.runConsumer
            [(mdns.range_listed, samples.dual_stack_entry);
             (mdns.range_listed, samples.goodbye_entry)] samples.one_instance
          = Done st')
  ∧ ¬ (∃ st', mdns.runConsumer
                [(mdns.range_listed, samples.dual_stack_entry);
                 (mdns.range_listed, samples.ipv6_only_entry)]
                samples.one_instance = Done st').
Proof.
  split.
  - apply (proj2 (mdns_consumer_survives_iff _ samples.one_instance)).
    apply Forall_cons. split; [right; discriminate|].
    apply Forall_cons. split; [by left|]. apply Forall_nil_2.
  - intros H.
    apply (proj1 (mdns_consumer_survives_iff _ samples.one_instance)) in H.
    apply Forall_cons in H as [_ H]. apply Forall_cons in H as [[H|H] _];
      [discriminate H|by apply H].
Defined.

(** X21.  An entry that announces an instance with an IPv4 address maps
    the instance to the dial target of its first IPv4 address and its
    port, leaves every other instance as it was, and makes the provider
    serve: fetch answers a list that holds that dial target, with a nil
    error. *)
Theorem mdns_announce_is_served (range : mdns.RangeOrder) (st : mdns.Consumer)
    (entry : mdns.ServiceEntry) (ip4 : net.IP) (rest : list net.IP) :
  mdns.range_ok range →
  mdns.TTL entry ≠ 0%N →
  mdns.AddrIPv4 entry = ip4 :: rest →
  let up := mkUpstream (net.JoinHostPort (net.IP_String ip4)
                          (strconv.Itoa (mdns.Port entry))) in
  ∃ (st' : mdns.Consumer) (ups : list Upstream),
    mdns.consumeEntry range st entry = Done st'
    ∧ mdns.activeServices st' !! mdns.Instance entry = Some up
    ∧ (∀ k : string, k ≠ mdns.Instance entry →
         mdns.activeServices st' !! k = mdns.activeServices st !! k)
    ∧ mdns.GetUpstreams (mdns.provider st') = (ups, None)
    ∧ up ∈ ups.
Proof.
  intros Hrange Httl Hv4 up.
  rewrite (consumeEntry_first_ipv4 range st entry ip4 rest Httl Hv4).
  fold up. set (active := <[mdns.Instance entry := up]> (mdns.activeServices st)).
  assert (up ∈ range active) as Hin.
  { rewrite (Hrange active). apply list_elem_of_fmap.
    exists (mdns.Instance entry, up). split; [done|].
    apply elem_of_map_to_list. apply lookup_insert_eq. }
  eexists _, (range active). split; [done|].
  cbn [mdns.activeServices mdns.provider].
  split; [apply lookup_insert_eq|].
  split; [intros k Hk; by apply lookup_insert_ne|].
  split; [|done].
  unfold mdns.GetUpstreams. rewrite mdns_updateUpstreams_upstreams.
  destruct (range active) as [|u l]; [by apply elem_of_nil in Hin|done].
Qed.

Lemma mdns_announce_is_served_witness :
  mdns.range_ok mdns.range_listed
  ∧ mdns.TTL samples.dual_stack_entry ≠ 0%N
  ∧ ∃ (st' : mdns.Consumer) (ups : list Upstream),
      mdns.consumeEntry mdns.range_listed samples.one_instance
        samples.dual_stack_entry = Done st'
      ∧ mdns.activeServices st' !! "printer"
        = Some (mkUpstream "192.168.1.7:8080")
      ∧ (∀ k : string, k ≠ "printer" →
           mdns.activeServices st' !! k
           = mdns.activeServices samples.one_instance !! k)
      ∧ mdns.GetUpstreams (mdns.provider st') = (ups, None)
      ∧ mkUpstream "192.168.1.7:8080" ∈ ups.
Proof.
  assert (mdns.range_ok mdns.range_listed) as Hok by (intros m; reflexivity).
  assert (mdns.TTL samples.dual_stack_entry ≠ 0%N) as Httl by discriminate.
  split; [exact Hok|]. split; [exact Httl|].
  exact (mdns_announce_is_served mdns.range_listed samples.one_instance
           samples.dual_stack_entry _ _ Hok Httl eq_refl).
Defined.

(** X22.  An instance that is announced and then withdrawn leaves no
    trace: if it was not known before, the map of active instances is
    back to what it was and the snapshot is an arrangement of that
    map's upstreams. *)
Theorem mdns_announce_then_goodbye (r1 r2 : mdns.RangeOrder) (st : mdns.Consumer)
    (hello bye : mdns.ServiceEntry) :
  mdns.range_ok r2 →
  mdns.activeServices st !! mdns.Instance hello = None →
  mdns.TTL hello ≠ 0%N →
  mdns.AddrIPv4 hello ≠ [] →
  mdns.TTL bye = 0%N →
  mdns.Instance bye = mdns.Instance hello →
  ∃ st' : mdns.Consumer,
    mdns.runConsumer [(r1, hello); (r2, bye)] st = Done st'
    ∧ mdns.activeServices st' = mdns.activeServices st
    ∧ mdns.upstreams (mdns.provider st')
      ≡ₚ (map_to_list (mdns.activeServices st)).*2.
Proof.
  intros Hrange Hfresh Httl Hv4 Hbye Hsame.
  destruct (mdns.AddrIPv4 hello) as [|ip4 rest] eqn:Hips; [done|].
  simpl. rewrite (consumeEntry_first_ipv4 r1 st hello ip4 rest Httl Hips).
  unfold mdns.consumeEntry at 1. apply N.eqb_eq in Hbye. rewrite Hbye.
  cbn [mdns.activeServices mdns.provider]. rewrite Hsame, lookup_insert_eq.
  rewrite (delete_insert_id _ _ _ Hfresh).
  eexists. split; [done|]. cbn [mdns.activeServices mdns.provider].
  split; [done|]. rewrite mdns_updateUpstreams_upstreams. apply Hrange.
Qed.

Lemma mdns_announce_then_goodbye_witness :
  mdns.range_ok mdns.range_listed
  ∧ mdns.activeServices samples.one_instance !! "printer" = None
  ∧ ∃ st' : mdns.Consumer,
      mdns.runConsumer
        [(mdns.range_listed, samples.dual_stack_entry);
         (mdns.range_listed, samples.goodbye_entry)] samples.one_instance
      = Done st'
      ∧ mdns.activeServices st' = mdns.activeServices samples.one_instance
      ∧ mdns.upstreams (mdns.provider st')
        ≡ₚ (map_to_list (mdns.activeServices samples.one_instance)).*2.
Proof.
  assert (mdns.range_ok mdns.range_listed) as Hok by (intros m; reflexivity).
  assert (mdns.activeServices samples.one_instance !! "printer" = None)
    as Hfresh by (by vm_compute).
  split; [exact Hok|]. split; [exact Hfresh|].
  refine (mdns_announce_then_goodbye mdns.range_listed mdns.range_listed
            samples.one_instance samples.dual_stack_entry samples.goodbye_entry
            Hok Hfresh _ _ eq_refl eq_refl); discriminate.
Defined.

(** X23.  When an instance is announced again, its new dial target
    replaces the old one: after two announcements of one instance the
    map is the original map with that instance mapped to the second
    dial target, and the snapshot holds one upstream per instance. *)
Theorem mdns_reannounce_replaces (r1 r2 : mdns.RangeOrder) (st : mdns.Consumer)
    (first second : mdns.ServiceEntry) (ip4 : net.IP) (rest : list net.IP) :
  mdns.range_ok r2 →
  mdns.TTL first ≠ 0%N →
  mdns.AddrIPv4 first ≠ [] →
  mdns.TTL second ≠ 0%N →
  mdns.AddrIPv4 second = ip4 :: rest →
  mdns.Instance second = mdns.Instance first →
  ∃ st' : mdns.Consumer,
    mdns.runConsumer [(r1, first); (r2, second)] st = Done st'
    ∧ mdns.activeServices st'
      = <[mdns.Instance first :=
            mkUpstream (net.JoinHostPort (net.IP_String ip4)
                          (strconv.Itoa (mdns.Port second)))]>
          (mdns.activeServices st)
    ∧ length (mdns.upstreams (mdns.provider st')) = size (mdns.activeServices st').
Proof.
  intros Hrange Httl1 Hv41 Httl2 Hv42 Hsame.
  destruct (mdns.AddrIPv4 first) as [|ip1 rest1] eqn:Hips; [done|].
  simpl. rewrite (consumeEntry_first_ipv4 r1 st first ip1 rest1 Httl1 Hips).
  rewrite (consumeEntry_first_ipv4 r2 _ second ip4 rest Httl2 Hv42).
  cbn [mdns.activeServices mdns.provider]. rewrite Hsame, insert_insert_eq.
  eexists. split; [done|]. cbn [mdns.activeServices mdns.provider].
  split; [done|]. rewrite mdns_updateUpstreams_upstreams.
  by rewrite (Hrange _), length_fmap, length_map_to_list.
Qed.

Lemma mdns_reannounce_replaces_witness :
  mdns.range_ok mdns.range_listed
  ∧ ∃ st' : mdns.Consumer,
      mdns.runConsumer
        [(mdns.range_listed, samples.dual_stack_entry);
         (mdns.range_listed, samples.dual_stack_entry)] samples.one_instance
      = Done st'
      ∧ mdns.activeServices st'
        = <["printer" := mkUpstream "192.168.1.7:8080"]>
            (mdns.activeServices samples.one_instance)
      ∧ length (mdns.upstreams (mdns.provider st'))
        = size (mdns.activeServices st').
Proof.
  assert (mdns.range_ok mdns.range_listed) as Hok by (intros m; reflexivity).
  split; [exact Hok|].
  refine (mdns_reannounce_replaces mdns.range_listed mdns.range_listed
            samples.one_instance samples.dual_stack_entry
            samples.dual_stack_entry _ _ Hok _ _ _ eq_refl eq_refl);
    discriminate.
Defined.

(** ** The lock protocol: progress and uninterrupted runs *)

Section StoreProgress.

Variable unavailable : error.

Lemma sum_pos_lookup {A : Type} (f : A → nat) (l : list A) :
  (0 < sum_list_with f l)%nat → ∃ i x, l !! i = Some x ∧ (0 < f x)%nat.
Proof.
  induction l as [|x l IH]; simpl; [lia|]. intros Hpos.
  destruct (decide (0 < f x)%nat) as [Hx|Hx].
  - by exists 0%nat, x.
  - destruct IH as (i & y & Hi & Hy); [lia|]. by exists (S i), y.
Qed.

Lemma returned_or_not (l : list store.Thread) :
  Forall store.returned l ∨ ∃ i t, l !! i = Some t ∧ ¬ store.returned t.
Proof.
  induction l as [|t l [IH|(i & t' & Hi & Ht')]].
  - by left.
  - assert (store.returned t ∨ ¬ store.returned t) as [Ht|Ht]
      by (destruct t as [[]|[]]; simpl; tauto).
    + left. by constructor.
    + right. by exists 0%nat, t.
  - right. by exists (S i), t'.
Qed.

(** The effect of a step of goroutine [i] that is not blocked. *)
Lemma step_fire (i : nat) (s : store.Sys) (t t' : store.Thread) (m' : store.Mem) :
  store.threads s !! i = Some t →
  store.step_thread unavailable (store.mem s) t = Some (m', t') →
  store.step unavailable i s
  = store.mkSys m' (<[i := t']> (store.threads s)).
Proof. intros Hi Hstep. unfold store.step. by rewrite Hi, Hstep. Qed.

(** A step of a goroutine that has returned changes nothing. *)
Lemma step_returned (i : nat) (s : store.Sys) (t : store.Thread) :
  store.threads s !! i = Some t → store.returned t →
  store.step unavailable i s = s.
Proof.
  intros Hi Hret. unfold store.step. rewrite Hi.
  by destruct t as [[]|[]].
Qed.

End StoreProgress.

(** X24.  The lock protocol cannot deadlock: under any schedule, as
    long as some call has not returned there is a goroutine that can
    take a step. *)
Theorem store_no_deadlock
    (unavailable : error) (ops : list store.Op) (sched : list nat) :
  let s := store.run unavailable sched (store.init ops) in
  Forall store.returned (store.threads s)
  ∨ ∃ (i : nat) (t t' : store.Thread) (m' : store.Mem),
      store.threads s !! i = Some t
      ∧ store.step_thread unavailable (store.mem s) t = Some (m', t').
Proof.
  intros s.
  pose proof (sys_inv_run unavailable sched _ (sys_inv_init unavailable ops))
    as [Hw Hr Hex _ _].
  fold s in Hw, Hr, Hex. destruct (store.mem s) as [w r d n] eqn:Hmem.
  simpl in *. destruct w.
  - right. destruct (sum_pos_lookup store.replacing (store.threads s))
      as (i & t & Hi & Ht); [lia|].
    exists i, t. destruct t as [[]|[]]; simpl in Ht; try lia; by eexists _, _.
  - destruct r as [|r].
    + destruct (returned_or_not (store.threads s)) as [Hall|(i & t & Hi & Ht)];
        [by left|right].
      exists i, t. destruct t as [[]|[]]; simpl in Ht; try done;
        simpl; try (by eexists _, _).
      destruct (n =? 0)%nat; by eexists _, _.
    + right. destruct (sum_pos_lookup store.reading (store.threads s))
        as (i & t & Hi & Ht); [lia|].
      exists i, t. destruct t as [[]|[]]; simpl in Ht; try lia;
        simpl; try (by eexists _, _).
      destruct (n =? 0)%nat; by eexists _, _.
Qed.

(** X25.  Under any schedule, a fetch that has returned has returned
    either a list that is not empty together with a nil error, or the
    nil list together with the unavailability error; never an empty
    list with a nil error. *)
Theorem store_fetch_never_empty_success
    (unavailable : error) (ops : list store.Op) (sched : list nat)
    (i : nat) (r : list Upstream * option error) :
  store.threads (store.run unavailable sched (store.init ops)) !! i
  = Some (store.Fetch (store.RReturned r)) →
  (r.1 ≠ [] ∧ r.2 = None) ∨ r = ([], Some unavailable).
Proof.
  intros Hi.
  pose proof (sys_inv_run unavailable sched _ (sys_inv_init unavailable ops))
    as [_ _ _ _ Hth].
  eapply Forall_lookup_1 in Hth; [|exact Hi].
  destruct Hth as (l & _ & ->). unfold store.fetch_result.
  destruct l; simpl; [by right|by left].
Qed.

Lemma store_fetch_never_empty_success_witness :
  (store.threads
     (store.run "no healthy upstreams available for service: web"
        samples.interleaved_schedule
        (store.init samples.two_replaces_two_fetches))) !! 1%nat
  = Some (store.Fetch (store.RReturned ([mkUpstream "10.0.0.1:8080"], None)))
  ∧ (([mkUpstream "10.0.0.1:8080"], None : option error).1 ≠ []
     ∧ ([mkUpstream "10.0.0.1:8080"], None : option error).2 = None
     ∨ ([mkUpstream "10.0.0.1:8080"], None)
       = ([], Some "no healthy upstreams available for service: web")).
Proof.
  assert ((store.threads
             (store.run "no healthy upstreams available for service: web"
                samples.interleaved_schedule
                (store.init samples.two_replaces_two_fetches))) !! 1%nat
          = Some (store.Fetch
                    (store.RReturned ([mkUpstream "10.0.0.1:8080"], None))))
    as H by reflexivity.
  split; [exact H|].
  exact (store_fetch_never_empty_success _ _ _ _ _ H).
Defined.

(** Rewrites the innermost pending step of goroutine [k], which is not
    blocked. *)
Ltac fire_step unav k :=
  match goal with
  | |- context [store.step unav k (store.mkSys ?m ?ts)] =>
      erewrite (step_fire unav k (store.mkSys m ts));
      [ | cbn [store.threads];
          first [ eassumption
                | by apply list_lookup_insert_eq
                | by rewrite list_lookup_insert_ne ]
        | reflexivity ];
      cbn [store.mem store.threads store.mu_writer store.mu_readers
           store.up_data store.up_len];
      rewrite ?list_insert_insert_eq
  end.

(** Drops the innermost pending step of goroutine [k], which has
    returned. *)
Ltac skip_step unav k :=
  match goal with
  | |- context [store.step unav k (store.mkSys ?m ?ts)] =>
      erewrite (step_returned unav k (store.mkSys m ts));
      [ | cbn [store.threads]; by apply list_lookup_insert_eq | exact I ]
  end.

(** X26.  Run without interference, the lock protocol does what the
    sequential provider does: from a state in which [mu] is free, a
    replacement run to its end followed by a fetch run to its end
    leaves [mu] free, installs the new list whole, and makes the fetch
    return what [GetUpstreams] of the Nacos provider answers on that
    list, whatever was installed before; no other goroutine is
    touched. *)
Theorem store_replace_then_fetch (np : nacos.NacosProvider) (s : store.Sys)
    (i j : nat) (new : list Upstream) :
  i ≠ j →
  store.threads s !! i = Some (store.Replace store.WLock new) →
  store.threads s !! j = Some (store.Fetch store.RRLock) →
  store.mu_writer (store.mem s) = false →
  store.mu_readers (store.mem s) = 0%nat →
  let s' :=
    store.run ("no healthy upstreams available for service: "
               ++ nacos.ServiceName np)
      [i; i; i; i; j; j; j; j; j] s in
  store.mem s' = store.mkMem false 0 new (length new)
  ∧ store.threads s' !! i = Some (store.Replace store.WReturned new)
  ∧ store.threads s' !! j
    = Some (store.Fetch
              (store.RReturned (nacos.GetUpstreams (nacos.set_upstreams new np))))
  ∧ ∀ k : nat, k ≠ i → k ≠ j → store.threads s' !! k = store.threads s !! k.
Proof.
  intros Hij Hi Hj Hw Hr. destruct s as [[w r d n] l]. simpl in Hi, Hj, Hw, Hr.
  subst w r.
  assert (i < length l)%nat as Hli by (by eapply lookup_lt_Some).
  assert (j < length l)%nat as Hlj by (by eapply lookup_lt_Some).
  set (unav := "no healthy upstreams available for service: "
               ++ nacos.ServiceName np).
  intros s'. unfold s', store.run. cbn [fold_left].
  do 4 fire_step unav i.
  assert (j < length (<[i:=store.Replace store.WReturned new]> l))%nat as Hlj'
    by (by rewrite length_insert).
  fire_step unav j.
  destruct new as [|u new].
  - do 2 fire_step unav j. do 2 skip_step unav j.
    cbn [store.mem store.threads]. split; [done|].
    split; [by rewrite list_lookup_insert_ne, list_lookup_insert_eq|].
    split; [by rewrite list_lookup_insert_eq|].
    intros k Hki Hkj. by rewrite !list_lookup_insert_ne.
  - do 4 fire_step unav j.
    cbn [store.mem store.threads]. split; [done|].
    split; [by rewrite list_lookup_insert_ne, list_lookup_insert_eq|].
    split.
    + rewrite list_lookup_insert_eq by done.
      change (take (length (u :: new)) (u :: new))
        with (u :: take (length new) new).
      by rewrite firstn_all.
    + intros k Hki Hkj. by rewrite !list_lookup_insert_ne.
Qed.

Lemma store_replace_then_fetch_witness :
  let s := store.init samples.two_replaces_two_fetches in
  let s' :=
    store.run "no healthy upstreams available for service: web"
      [0; 0; 0; 0; 1; 1; 1; 1; 1]%nat s in
  store.threads s !! 0%nat
  = Some (store.Replace store.WLock [mkUpstream "10.0.0.1:8080"])
  ∧ store.threads s !! 1%nat = Some (store.Fetch store.RRLock)
  ∧ store.mem s' = store.mkMem false 0 [mkUpstream "10.0.0.1:8080"] 1
  ∧ store.threads s' !! 1%nat
    = Some (store.Fetch (store.RReturned ([mkUpstream "10.0.0.1:8080"], None))).
Proof.
  intros s s'.
  pose proof (store_replace_then_fetch samples.nacos_empty s 0 1
                [mkUpstream "10.0.0.1:8080"] ltac:(discriminate)
                eq_refl eq_refl eq_refl eq_refl) as (Hmem & _ & Hj & _).
  split; [reflexivity|]. split; [reflexivity|].
  split; [exact Hmem|exact Hj].
Defined.

(** ** The shape of a dial target *)

Section DialShape.

Lemma string_app_assoc (s1 s2 s3 : string) :
  (s1 ++ s2) ++ s3 = s1 ++ s2 ++ s3.
Proof.
  induction s1 as [|c s1 IH]; [done|].
  change (String c ((s1 ++ s2) ++ s3) = String c (s1 ++ s2 ++ s3)).
  by rewrite IH.
Qed.

Lemma has_colon_app (s1 s2 : string) :
  net.has_colon (s1 ++ s2) = net.has_colon s1 || net.has_colon s2.
Proof.
  induction s1 as [|c s1 IH]; simpl; [done|].
  by destruct (Ascii.eqb c ":").
Qed.

Lemma pretty_N_char_no_colon (x : N) : Ascii.eqb (pretty_N_char x) ":" = false.
Proof. unfold pretty_N_char. by repeat case_match. Qed.

Lemma pretty_N_go_no_colon (x : N) (s : string) :
  net.has_colon s = false → net.has_colon (pretty_N_go x s) = false.
Proof.
  revert s. induction (N.lt_wf_0 x) as [x _ IH]. intros s Hs.
  destruct (decide (x = 0)%N) as [->|Hx]; [by rewrite pretty_N_go_0|].
  rewrite pretty_N_go_step by lia. apply IH.
  - apply N.div_lt; lia.
  - simpl. by rewrite pretty_N_char_no_colon.
Qed.

Lemma pretty_N_no_colon (x : N) : net.has_colon (pretty x) = false.
Proof.
  unfold pretty, pretty_N. case_decide; [done|].
  by apply pretty_N_go_no_colon.
Qed.

End DialShape.

(** X27.  For an instance announced with a four-byte IPv4 address
    a.b.c.d the dial target is the text a.b.c.d:port, without
    brackets. *)
Theorem mdns_ipv4_dial_target (range : mdns.RangeOrder) (st : mdns.Consumer)
    (entry : mdns.ServiceEntry) (a b c d : N) (rest : list net.IP) :
  mdns.TTL entry ≠ 0%N →
  mdns.AddrIPv4 entry = [a; b; c; d] :: rest →
  ∃ st' : mdns.Consumer,
    mdns.consumeEntry range st entry = Done st'
    ∧ mdns.activeServices st' !! mdns.Instance entry
      = Some (mkUpstream
                (pretty a ++ "." ++ pretty b ++ "." ++ pretty c ++ "."
                 ++ pretty d ++ ":" ++ strconv.Itoa (mdns.Port entry))).
Proof.
  intros Httl Hv4.
  rewrite (consumeEntry_first_ipv4 range st entry _ _ Httl Hv4).
  eexists. split; [done|]. cbn [mdns.activeServices]. rewrite lookup_insert_eq.
  do 2 f_equal. unfold net.JoinHostPort.
  change (net.IP_String [a; b; c; d])
    with (pretty a ++ "." ++ pretty b ++ "." ++ pretty c ++ "." ++ pretty d).
  assert (net.has_colon
            (pretty a ++ "." ++ pretty b ++ "." ++ pretty c ++ "." ++ pretty d)
          = false) as ->.
  { rewrite !has_colon_app, !pretty_N_no_colon. done. }
  by rewrite !string_app_assoc.
Qed.

Lemma mdns_ipv4_dial_target_witness :
  mdns.TTL samples.dual_stack_entry ≠ 0%N
  ∧ ∃ st' : mdns.Consumer,
      mdns.consumeEntry mdns.range_listed samples.one_instance
        samples.dual_stack_entry = Done st'
      ∧ mdns.activeServices st' !! "printer"
        = Some (mkUpstream "192.168.1.7:8080").
Proof.
  assert (mdns.TTL samples.dual_stack_entry ≠ 0%N) as Httl by discriminate.
  split; [exact Httl|].
  exact (mdns_ipv4_dial_target mdns.range_listed samples.one_instance
           samples.dual_stack_entry 192 168 1 7 _ Httl eq_refl).
Defined.
